(** * Documentation tooling of node-api-dotnet: a shallow embedding

    Two scripts are embedded here.

    - The .NET API doc script (builds every project, runs XmlDocMarkdown,
      merges the per-assembly indexes, derives the sidebar navigation tree
      and post-processes every Markdown file).
    - The JS API doc script (runs TypeDoc on [index.d.ts] and renders the
      JSON symbol tree as one Markdown page).

    JavaScript strings are modelled by [string]: sequences of code units
    restricted to one byte each.  In that range the line terminators of
    ECMAScript regular expressions are LF and CR, and [\d] is [0-9].

    The file system is a tree without symbolic links; paths are lists of
    segments and print in POSIX form.  The external tools ([dotnet],
    XmlDocMarkdown, TypeDoc) and the built-in [JSON] functions are
    parameters of the scripts. *)

From Stdlib Require Import Bool Ascii String List ZArith Lia DecimalString.
From Stdlib Require Import Permutation Sorted.
Import ListNotations.

Local Open Scope list_scope.
Local Open Scope string_scope.
#[local] Set Warnings "-register-all".

(** ** Characters and small string helpers *)

Module Str.

Definition LF : ascii := Ascii.ascii_of_nat 10.
Definition CR : ascii := Ascii.ascii_of_nat 13.
Definition nl : string := String LF "".
Definition quote : string := String (Ascii.ascii_of_nat 34) "".

(** The characters that [.] does not match and around which [^] and [$]
    anchor when the [m] flag is set. *)
Definition isLineTerminator (c : ascii) : bool :=
  (c =? LF)%char || (c =? CR)%char.

Definition isDigit (c : ascii) : bool :=
  let n := Ascii.nat_of_ascii c in (48 <=? n)%nat && (n <=? 57)%nat.

Definition isPipe (c : ascii) : bool := (c =? "|")%char.

(** [String.prototype.startsWith], also the test of a literal at the
    current position of a scan. *)
Definition startsWith (p s : string) : bool := String.prefix p s.

(** [s.split(sep)] for the line terminators: the text between them. *)
Fixpoint lines (s : string) : list string :=
  match s with
  | EmptyString => [EmptyString]
  | String c r =>
      if isLineTerminator c then EmptyString :: lines r
      else match lines r with
           | l :: ls => String c l :: ls
           | [] => [String c EmptyString]
           end
  end.

(** A literal at the current position: the rest of the text behind it. *)
Fixpoint stripPrefix (p s : string) : option string :=
  match p, s with
  | EmptyString, _ => Some s
  | String a p', String b s' => if (a =? b)%char then stripPrefix p' s' else None
  | String _ _, EmptyString => None
  end.

(** A pattern [lit$] without the [m] flag: the leftmost position from
    which [lit] runs to the end of the text; the text before it. *)
Fixpoint stripSuffix (suf s : string) : option string :=
  if (s =? suf)%string then Some EmptyString
  else match s with
       | EmptyString => None
       | String c r => option_map (String c) (stripSuffix suf r)
       end.

Definition endsWith (suf s : string) : bool :=
  match stripSuffix suf s with Some _ => true | None => false end.

(** [s.replace(pat, rep)] with a string pattern: the first occurrence. *)
Fixpoint replaceFirst (pat rep s : string) : string :=
  match stripPrefix pat s with
  | Some rest => rep ++ rest
  | None => match s with
            | EmptyString => EmptyString
            | String c r => String c (replaceFirst pat rep r)
            end
  end.

Fixpoint mapChars (f : ascii -> ascii) (s : string) : string :=
  match s with
  | EmptyString => EmptyString
  | String c r => String (f c) (mapChars f r)
  end.

(** [toLowerCase] on one-byte code units: A-Z, and the Latin-1 capitals
    U+00C0 to U+00DE except the multiplication sign. *)
Definition toLowerChar (c : ascii) : ascii :=
  let n := Ascii.nat_of_ascii c in
  if ((65 <=? n) && (n <=? 90))%nat then Ascii.ascii_of_nat (n + 32)
  else if ((192 <=? n) && (n <=? 222) && negb (n =? 215))%nat
       then Ascii.ascii_of_nat (n + 32)
  else c.

Definition toLowerCase : string -> string := mapChars toLowerChar.

(** [f.substr(0, f.length - 3)] *)
Definition dropLast3 (f : string) : string :=
  String.substring 0 (String.length f - 3) f.

(** A text without line terminators. *)
Fixpoint singleLine (s : string) : bool :=
  match s with
  | EmptyString => true
  | String c r => negb (isLineTerminator c) && singleLine r
  end.

(** Whether a character occurs in a text. *)
Fixpoint hasChar (ch : ascii) (s : string) : bool :=
  match s with
  | EmptyString => false
  | String c r => (c =? ch)%char || hasChar ch r
  end.

(** Every line followed by a line feed. *)
Fixpoint unlines (ls : list string) : string :=
  match ls with
  | [] => EmptyString
  | l :: r => l ++ nl ++ unlines r
  end.

End Str.

(** ** Markdown post-processing ([processMarkdown]) *)

Module Markdown.
Import Str.

(** Both look-arounds of the escaping patterns read, away from the match
    position, any number of characters that are not pipes and then a
    pipe: leftwards for the look-behind, rightwards for the look-ahead.
    The scan skips the characters that are not pipes and succeeds on the
    first pipe. *)
Fixpoint reachesPipe (s : string) : bool :=
  match s with
  | EmptyString => false
  | String c r => if isPipe c then true else reachesPipe r
  end.

(** One [md.replace(re, ent)] of [processMarkdown], where the global
    pattern [re] matches the character [ch] between the look-behind and
    the look-ahead above.  [before] is the text on the left of the
    current position, nearest character first:
    look-arounds read the subject string, never the output.  A match
    consumes one character, so the scan resumes at the next one. *)
Fixpoint replaceInCells (ch : ascii) (ent : string) (before s : string) : string :=
  match s with
  | EmptyString => EmptyString
  | String c rest =>
      if (c =? ch)%char && reachesPipe before && reachesPipe rest
      then ent ++ replaceInCells ch ent (String c before) rest
      else String c (replaceInCells ch ent (String c before) rest)
  end.

Definition escapeTableChars (md : string) : string :=
  replaceInCells "}" "&rbrace;" ""
    (replaceInCells "{" "&lbrace;" ""
      (replaceInCells ";" "&semi;" "" md)).

(** The template literal of the front matter, line breaks included. *)
Definition frontMatter : string :=
  "---" ++ nl ++
  "editLink: false" ++ nl ++
  "prev: false" ++ nl ++
  "next: false" ++ nl ++
  "outline: false" ++ nl ++
  "---" ++ nl.

Definition processMarkdown (md : string) : string :=
  frontMatter ++ escapeTableChars md.

(** *** The table-cell reading of the specification

    A cell is the text between two consecutive pipes.  Splitting at the
    pipes, every segment but the first and the last is a cell. *)

Fixpoint splitPipes (s : string) : list string :=
  match s with
  | EmptyString => [EmptyString]
  | String c r =>
      if isPipe c then EmptyString :: splitPipes r
      else match splitPipes r with
           | l :: ls => String c l :: ls
           | [] => [String c EmptyString]
           end
  end.

Definition entityOf (c : ascii) : string :=
  if (c =? ";")%char then "&semi;"
  else if (c =? "{")%char then "&lbrace;"
  else if (c =? "}")%char then "&rbrace;"
  else String c "".

Fixpoint escapeCell (s : string) : string :=
  match s with
  | EmptyString => EmptyString
  | String c r => entityOf c ++ escapeCell r
  end.

(** The segments after the first pipe: all are cells except the last. *)
Fixpoint closeCells (segs : list string) : string :=
  match segs with
  | [] => EmptyString
  | [lastSeg] => lastSeg
  | cell :: rest => escapeCell cell ++ "|" ++ closeCells rest
  end.

Definition escapeCells_spec (s : string) : string :=
  match splitPipes s with
  | [] => EmptyString
  | [only] => only
  | outside :: rest => outside ++ "|" ++ closeCells rest
  end.

(** The cells of a text: the segments between two consecutive pipes. *)
Definition cells (s : string) : list string := removelast (tl (splitPipes s)).

(** *** Two views of the scan, used to reason about it *)

(** The scan of one replace only needs to know whether a pipe lies on
    its left. *)
Fixpoint pass (ch : ascii) (ent : string) (seen : bool) (s : string) : string :=
  match s with
  | EmptyString => EmptyString
  | String c rest =>
      if (c =? ch)%char && seen && reachesPipe rest
      then ent ++ pass ch ent (isPipe c || seen) rest
      else String c (pass ch ent (isPipe c || seen) rest)
  end.

(** The three replaces fused into one left-to-right scan. *)
Fixpoint fused (seen : bool) (s : string) : string :=
  match s with
  | EmptyString => EmptyString
  | String c rest =>
      (if seen && reachesPipe rest then entityOf c else String c "")
        ++ fused (isPipe c || seen) rest
  end.

End Markdown.

(** ** Exceptions and results *)

Module Js.

(** An error object: its [message], and the [status] that [execSync]
    attaches when the child exited with one. *)
Record Exn := mkExn { message : string; status : option Z }.

(** [new Error(msg)] *)
Definition Error (msg : string) : Exn := mkExn msg None.

(** Errors raised by the file-system calls, with Node's message layout. *)
Definition sysError (code what syscall path : string) : Exn :=
  Error (code ++ ": " ++ what ++ ", " ++ syscall ++ " '" ++ path ++ "'").

Definition ENOENT := sysError "ENOENT" "no such file or directory".
Definition ENOTDIR := sysError "ENOTDIR" "not a directory".
Definition EISDIR := sysError "EISDIR" "illegal operation on a directory".
Definition EEXIST := sysError "EEXIST" "file already exists".
Definition EPERM := sysError "EPERM" "operation not permitted".

(** The error of [read] on a directory.  [readFileSync] opens a
    directory without complaint and fails when it reads from it; an
    error of a call on an open file names no path. *)
Definition EISDIR_read : Exn :=
  Error "EISDIR: illegal operation on a directory, read".

(** Reading a property of [undefined]. *)
Definition TypeError (prop : string) : Exn :=
  Error ("Cannot read properties of undefined (reading '" ++ prop ++ "')").

Inductive Result (A : Type) : Type :=
| Ok (a : A)
| Throw (e : Exn).
Arguments Ok {A} a.
Arguments Throw {A} e.

Definition bindR {A B} (r : Result A) (k : A -> Result B) : Result B :=
  match r with
  | Ok a => k a
  | Throw e => Throw e
  end.

(** [xs.map(f)] when [f] may throw: the first exception ends the loop. *)
Fixpoint mapR {A B} (f : A -> Result B) (xs : list A) : Result (list B) :=
  match xs with
  | [] => Ok []
  | x :: r => bindR (f x) (fun y => bindR (mapR f r) (fun ys => Ok (y :: ys)))
  end.

(** Truthiness of a string that may be [undefined]. *)
Definition truthyStr (o : option string) : bool :=
  match o with
  | Some s => negb (s =? "")%string
  | None => false
  end.

(** The decimal text of an integer in a template literal. *)
Definition showZ (n : Z) : string :=
  match n with
  | Z0 => "0"
  | Zpos p => DecimalString.NilEmpty.string_of_uint (Pos.to_uint p)
  | Zneg p => "-" ++ DecimalString.NilEmpty.string_of_uint (Pos.to_uint p)
  end.

End Js.

(** ** The file system

    A tree of named entries.  Paths are absolute and given by their
    segments; there are no symbolic links.  A directory lists its
    entries in the order [readdirSync] reports them. *)

Module Fs.
Import Js.

Inductive Entry : Type :=
| File (content : string)
| Dir (entries : list (string * Entry)).

Definition Path := list string.

Definition pathString (p : Path) : string := "/" ++ String.concat "/" p.

(** [path.join(p, a, b, ...)] for segments without dots. *)
Definition join (p : Path) (segs : list string) : Path := (p ++ segs)%list.

(** [path.join(p, '..')] *)
Definition parent (p : Path) : Path := removelast p.

Fixpoint lookupEntry (name : string) (es : list (string * Entry)) : option Entry :=
  match es with
  | [] => None
  | (n, e) :: r => if (n =? name)%string then Some e else lookupEntry name r
  end.

Fixpoint setEntry (name : string) (e : Entry) (es : list (string * Entry))
  : list (string * Entry) :=
  match es with
  | [] => [(name, e)]
  | (n, x) :: r =>
      if (n =? name)%string then (n, e) :: r else (n, x) :: setEntry name e r
  end.

Definition removeEntry (name : string) (es : list (string * Entry))
  : list (string * Entry) :=
  filter (fun ne => negb (fst ne =? name)%string) es.

Fixpoint lookup (p : Path) (e : Entry) : option Entry :=
  match p with
  | [] => Some e
  | n :: p' =>
      match e with
      | Dir es =>
          match lookupEntry n es with
          | Some x => lookup p' x
          | None => None
          end
      | File _ => None
      end
  end.

(** The content of the file at a path, when the path names a file. *)
Definition fileContent (p : Path) (fs : Entry) : option string :=
  match lookup p fs with Some (File c) => Some c | _ => None end.

Definition existsSync (p : Path) (fs : Entry) : bool :=
  match lookup p fs with Some _ => true | None => false end.

Definition readFileSync (p : Path) (fs : Entry) : Result string :=
  match lookup p fs with
  | Some (File c) => Ok c
  | Some (Dir _) => Throw EISDIR_read
  | None => Throw (ENOENT "open" (pathString p))
  end.

(** The paths of [k + 1] segments below an entry, relative to it, in
    the order of the entries. *)
Fixpoint level (k : nat) (e : Entry) {struct k} : list Path :=
  match e with
  | File _ => []
  | Dir es =>
      match k with
      | O => map (fun ne => [fst ne]) es
      | S k' => flat_map (fun ne => map (cons (fst ne)) (level k' (snd ne))) es
      end
  end.

(** The number of directory levels of an entry. *)
Fixpoint height (e : Entry) : nat :=
  match e with
  | File _ => 0
  | Dir es => S (fold_right (fun ne h => Nat.max (height (snd ne)) h) 0 es)
  end.

(** The paths below a directory, relative to it, as a recursive listing
    reports them.  The listing reads the directory, then one after the
    other the directories it has met so far, in the order in which it
    met them: all the paths of one segment come first, then those of
    two segments, and so on. *)
Definition descendants (e : Entry) : list Path :=
  flat_map (fun k => level k e) (seq 0 (height e)).

(** [fs.readdirSync(p, { recursive: true })] *)
Definition readdirRecursive (p : Path) (fs : Entry) : Result (list Path) :=
  match lookup p fs with
  | Some (Dir es) => Ok (descendants (Dir es))
  | Some (File _) => Throw (ENOTDIR "scandir" (pathString p))
  | None => Throw (ENOENT "scandir" (pathString p))
  end.

Fixpoint writeAt (full p : Path) (content : string) (e : Entry) : Result Entry :=
  match e with
  | File _ => Throw (ENOTDIR "open" (pathString full))
  | Dir es =>
      match p with
      | [] => Throw (EISDIR "open" (pathString full))
      | [n] =>
          match lookupEntry n es with
          | Some (Dir _) => Throw (EISDIR "open" (pathString full))
          | _ => Ok (Dir (setEntry n (File content) es))
          end
      | n :: p' =>
          match lookupEntry n es with
          | Some x =>
              bindR (writeAt full p' content x) (fun x' => Ok (Dir (setEntry n x' es)))
          | None => Throw (ENOENT "open" (pathString full))
          end
      end
  end.

(** [fs.writeFileSync(p, content)]: the directory of [p] has to exist. *)
Definition writeFileSync (p : Path) (content : string) (fs : Entry) : Result Entry :=
  writeAt p p content fs.

Fixpoint removeAt (p : Path) (e : Entry) : Entry :=
  match e with
  | File _ => e
  | Dir es =>
      match p with
      | [] => e
      | [n] => Dir (removeEntry n es)
      | n :: p' =>
          match lookupEntry n es with
          | Some x => Dir (setEntry n (removeAt p' x) es)
          | None => e
          end
      end
  end.

(** [fs.rmSync(p, { recursive: true, force: true })].  A missing path is
    not an error; the root cannot be removed. *)
Definition rmSync (p : Path) (fs : Entry) : Result Entry :=
  match p with
  | [] => Throw (EPERM "rm" (pathString p))
  | _ => Ok (removeAt p fs)
  end.

Fixpoint mkdirAt (full p : Path) (e : Entry) : Result Entry :=
  match e with
  | File _ =>
      match p with
      | [] => Throw (EEXIST "mkdir" (pathString full))
      | _ => Throw (ENOTDIR "mkdir" (pathString full))
      end
  | Dir es =>
      match p with
      | [] => Ok e
      | n :: p' =>
          let child := match lookupEntry n es with Some x => x | None => Dir [] end in
          bindR (mkdirAt full p' child) (fun x' => Ok (Dir (setEntry n x' es)))
      end
  end.

(** [fs.mkdirSync(p, { recursive: true })] *)
Definition mkdirSync (p : Path) (fs : Entry) : Result Entry := mkdirAt p p fs.

End Fs.

(** ** Markdown headers *)

Module Headers.
Import Str Js Fs.

(** The global multi-line pattern [^# .*$], each match replaced by the
    empty string.  A match starts at the beginning of a line that opens
    with [# ] and runs to the end of that line; the line terminators are
    never part of it. *)
Inductive LineMode := LineStart | Copy | Drop.

Fixpoint removeH1 (mode : LineMode) (s : string) : string :=
  match s with
  | EmptyString => EmptyString
  | String c rest =>
      if isLineTerminator c then String c (removeH1 LineStart rest)
      else match mode with
           | LineStart =>
               if startsWith "# " s then removeH1 Drop rest
               else String c (removeH1 Copy rest)
           | Copy => String c (removeH1 Copy rest)
           | Drop => removeH1 Drop rest
           end
  end.

Definition removeLevel1Headers (md : string) : string := removeH1 LineStart md.

(** A level-1 header is a line that opens with [# ].  What the removal
    is meant to leave of a line: nothing of a header, all of any other. *)
Definition isLevel1Header (line : string) : bool := startsWith "# " line.

Definition withoutHeader (line : string) : string :=
  if isLevel1Header line then EmptyString else line.

(** A text whose last character is a line terminator. *)
Definition endsWithLineBreak (md : string) : Prop :=
  exists a c, md = a ++ String c EmptyString /\ isLineTerminator c = true.

(** [markdown.matchAll(headerRegex)] mapped to the first group.  With
    the flags [gm] the pattern anchors the prefix and a space at the
    start of a line and captures the rest of that line: one match per
    line that opens so.
    The prefix is spliced into the pattern as it is.  The two prefixes
    that the script passes, [#] and [##], hold no pattern syntax and
    stand for themselves; the definition is meant for such prefixes. *)
Definition matchHeaders (headerPrefix markdown : string) : list string :=
  flat_map
    (fun line => match stripPrefix (headerPrefix ++ " ") line with
                 | Some h => [h]
                 | None => []
                 end)
    (lines markdown).

(** The tail of the overload pattern after the digit: characters other
    than line terminators, then a closing parenthesis that ends the
    text. *)
Fixpoint restOfOverloadSuffix (s : string) : bool :=
  match s with
  | EmptyString => false
  | String c r =>
      match r with
      | EmptyString => (c =? ")")%char
      | _ => negb (isLineTerminator c) && restOfOverloadSuffix r
      end
  end.

(** The overload pattern tried at the current position: a space, an
    opening parenthesis, a digit, and the tail above. *)
Definition overloadSuffixHere (s : string) : bool :=
  match s with
  | String sp (String op (String d rest)) =>
      (sp =? " ")%char && (op =? "(")%char && isDigit d && restOfOverloadSuffix rest
  | _ => false
  end.

(** The text before the leftmost match of the overload pattern. *)
Fixpoint beforeOverloadSuffix (s : string) : option string :=
  if overloadSuffixHere s then Some EmptyString
  else match s with
       | EmptyString => None
       | String c r => option_map (String c) (beforeOverloadSuffix r)
       end.

(** [re.test(headers[0])]; without a first header the subject is the
    text [undefined], which does not match. *)
Definition testOverload (first : option string) : bool :=
  match first with
  | Some h => match beforeOverloadSuffix h with Some _ => true | None => false end
  | None => false
  end.

(** [header.replace(re, '')] *)
Definition removeOverloadSuffix (h : string) : string :=
  match beforeOverloadSuffix h with Some p => p | None => h end.

(** [header.replace(/ namespace$/, '')] *)
Definition removeNamespaceSuffix (h : string) : string :=
  match stripSuffix " namespace" h with Some p => p | None => h end.

(** [header.replace(/\.| /g, '-')] *)
Definition dashed : string -> string :=
  mapChars (fun c => if (c =? ".")%char || (c =? " ")%char then "-"%char else c).

(** [link.replace(/\\/g, '/')] *)
Definition slashed : string -> string :=
  mapChars (fun c => if (c =? "\")%char then "/"%char else c).

End Headers.

(** ** The navigation tree ([generateNavigationTree]) *)

Module Nav.
Import Str Js Fs Headers.

Inductive NavItem : Type :=
  mkNavItem {
    text : string;
    link : string;
    items : option (list NavItem);
    collapsed : option bool
  }.

Definition referencePath : string := "/reference/dotnet/".

(** [getMarkdownFileHeaders(path.join(currentDir, name), headerPrefix)],
    the file being looked up in the entries of the current directory. *)
Definition getMarkdownFileHeaders
    (currentDir : Path) (es : list (string * Entry)) (name headerPrefix : string)
  : Result (list string) :=
  match lookupEntry name es with
  | Some (File markdown) => Ok (matchHeaders headerPrefix markdown)
  | Some (Dir _) => Throw EISDIR_read
  | None => Throw (ENOENT "open" (pathString (join currentDir [name])))
  end.

(** [subDir ?? ''] as path segments. *)
Definition orEmpty (subDir : option Path) : Path :=
  match subDir with Some d => d | None => [] end.

(** The base names of the Markdown files of a directory, sorted:
    [readdirSync(..).filter(..).map(..).sort()].  The default order of
    [sort] compares code units, which is [String.leb]. *)
Fixpoint insertSorted (x : string) (l : list string) : list string :=
  match l with
  | [] => [x]
  | y :: r => if String.leb x y then x :: l else y :: insertSorted x r
  end.

Fixpoint sort (l : list string) : list string :=
  match l with
  | [] => []
  | x :: r => insertSorted x (sort r)
  end.

(** The order of [sort] as a relation. *)
Definition le (a b : string) : Prop := (a <=? b) = true.

Definition markdownBaseNames (es : list (string * Entry)) : list string :=
  sort (map dropLast3 (filter (endsWith ".md") (map fst es))).

(** Shorten some header suffixes so they fit better in the sidebar. *)
Definition shortenHeader (header : string) : string :=
  replaceFirst "structure" "struct" (removeNamespaceSuffix header).

(** The object pushed for one header.  An array is truthy even when it
    is empty, so [collapsed] is set whenever [subItems] is defined. *)
Definition navItemOf
    (subDir : option Path) (file header : string) (subItems : option (list NavItem))
  : NavItem :=
  let link := slashed (referencePath ++ String.concat "/" (join (orEmpty subDir) [file])) in
  let link :=
    if endsWith " namespace" header
    then referencePath ++ "#" ++ toLowerCase (dashed header)
    else link in
  let header := shortenHeader header in
  {| text := header;
     link := link;
     items := subItems;
     collapsed := match subItems with Some _ => Some true | None => None end |}.

(** The body of the loop over the files.  [subTree file] is the
    recursive call for the directory called [file], when the current
    directory has one. *)
Definition fileItems
    (currentDir : Path) (es : list (string * Entry)) (subDir : option Path)
    (subTree : string -> option (Path -> Result (list NavItem)))
    (file : string) : Result (list NavItem) :=
  bindR (getMarkdownFileHeaders currentDir es (file ++ ".md")
           (match subDir with Some _ => "#" | None => "##" end))
    (fun headers =>
       let headers :=
         if testOverload (hd_error headers)
         then match headers with
              | h :: _ => [removeOverloadSuffix h]
              | [] => []
              end
         else headers in
       mapR (fun header =>
               bindR match subTree file with
                     | Some recurse =>
                         bindR (recurse (join (orEmpty subDir) [file]))
                               (fun sub => Ok (Some sub))
                     | None => Ok None
                     end
                 (fun subItems => Ok (navItemOf subDir file header subItems)))
            headers).

(** The test for a matching subdirectory: an entry of the current
    directory called [file] that is a directory.  [recurse] is the
    recursive call on it. *)
Definition findSubTree
    (recurse : Entry -> Path -> Result (list NavItem)) (file : string)
  : list (string * Entry) -> option (Path -> Result (list NavItem)) :=
  fix find (l : list (string * Entry)) :=
    match l with
    | [] => None
    | (n, x) :: r =>
        if (n =? file)%string
        then match x with
             | Dir _ => Some (recurse x)
             | File _ => None
             end
        else find r
    end.

(** [generateNavigationTree(rootDir, subDir)], given the directory node
    found at [currentDir].  The recursion enters the child directory
    that carries the base name of a Markdown file.  A directory is
    looked up among the entries by its name, so the base names that
    [path.join] would resolve to the directory itself or to its parent
    (the files [.md], [..md] and [...md]) find nothing here. *)
Fixpoint generateNavigationTree
    (rootDir : Path) (dir : Entry) (subDir : option Path) {struct dir}
  : Result (list NavItem) :=
  let currentDir := join rootDir (orEmpty subDir) in
  match dir with
  | File _ => Throw (ENOTDIR "scandir" (pathString currentDir))
  | Dir es =>
      let subTree (file : string) :=
        findSubTree (fun x sd => generateNavigationTree rootDir x (Some sd)) file es in
      bindR (mapR (fileItems currentDir es subDir subTree) (markdownBaseNames es))
            (fun perFile => Ok (concat perFile))
  end.

(** A tree in which every entry whose name ends in [.md] is a file, at
    every depth. *)
Fixpoint markdownAreFiles (e : Entry) : bool :=
  match e with
  | File _ => true
  | Dir es =>
      forallb
        (fun ne =>
           (negb (endsWith ".md" (fst ne))
            || match snd ne with File _ => true | Dir _ => false end)
           && markdownAreFiles (snd ne))
        es
  end.

(** A base name that [path.join] appends to a directory as it is: it is
    not empty, it is none of the segments [.] and [..], and it holds no
    separator. *)
Definition plainBaseName (file : string) : bool :=
  negb ((file =? "") || (file =? ".") || (file =? ".."))%string
  && negb (hasChar "/" file).

(** A tree in which every entry whose name ends in [.md] has a plain
    base name, at every depth: no entry is called [.md], [..md] or
    [...md].  On such a tree the directory that [path.join] names for a
    base name is the entry of that name, and the link that it builds is
    the plain concatenation of the segments. *)
Fixpoint plainNames (e : Entry) : bool :=
  match e with
  | File _ => true
  | Dir es =>
      forallb
        (fun ne =>
           (negb (endsWith ".md" (fst ne)) || plainBaseName (dropLast3 (fst ne)))
           && plainNames (snd ne))
        es
  end.

(** The invariant of an item: [collapsed] is [true] when [items] is
    there and missing when [items] is missing. *)
Definition collapsedWithItems (it : NavItem) : Prop :=
  collapsed it = match items it with Some _ => Some true | None => None end.

(** Whether an item occurs in a tree, at any depth. *)
Inductive occurs (it : NavItem) : list NavItem -> Prop :=
| occurs_here l : In it l -> occurs it l
| occurs_below l parent sub :
    In parent l -> items parent = Some sub -> occurs it sub -> occurs it l.

(** The call of the script: [generateNavigationTree(outDir)]. *)
Definition generateNavigationTreeAt (rootDir : Path) (fs : Entry)
  : Result (list NavItem) :=
  match lookup rootDir fs with
  | Some dir => generateNavigationTree rootDir dir None
  | None => Throw (ENOENT "scandir" (pathString rootDir))
  end.

End Nav.

(** ** A run of a script

    A script threads the file system and the two console streams, and
    ends by returning, by an exception that nothing catches, or by
    [process.exit].  The streams hold what the script itself prints with
    [console.log] and [console.error], in order.  What a child process
    or a library prints on its own account is not recorded: a command
    run by [execSync] has its output captured and its error output sent
    to the terminal, and TypeDoc prints its diagnostics itself. *)

Module Process.
Import Js Fs.

(** What [console.error] was given: a text, or an error object. *)
Inductive Printed :=
| Text (s : string)
| Object (e : Exn).

Record World := mkWorld {
  fs : Entry;
  stdout : list string;
  stderr : list Printed
}.

Inductive Outcome (A : Type) : Type :=
| Returned (a : A) (w : World)
| Thrown (e : Exn) (w : World)
| Exited (code : Z) (w : World).
Arguments Returned {A} a w.
Arguments Thrown {A} e w.
Arguments Exited {A} code w.

Definition M (A : Type) : Type := World -> Outcome A.

Definition ret {A} (a : A) : M A := fun w => Returned a w.

Definition bind {A B} (m : M A) (k : A -> M B) : M B :=
  fun w =>
    match m w with
    | Returned a w' => k a w'
    | Thrown e w' => Thrown e w'
    | Exited c w' => Exited c w'
    end.

Definition throw {A} (e : Exn) : M A := fun w => Thrown e w.

(** [try { body } catch (e) { handler(e) }], and [promise.catch]. *)
Definition tryCatch {A} (body : M A) (handler : Exn -> M A) : M A :=
  fun w =>
    match body w with
    | Thrown e w' => handler e w'
    | o => o
    end.

(** [process.exit(code)] *)
Definition processExit {A} (code : Z) : M A := fun w => Exited code w.

Definition consoleLog (s : string) : M unit :=
  fun w => Returned tt (mkWorld (fs w) (stdout w ++ [s])%list (stderr w)).

Definition consoleError (p : Printed) : M unit :=
  fun w => Returned tt (mkWorld (fs w) (stdout w) (stderr w ++ [p])%list).

(** [e.message || e] *)
Definition messageOr (e : Exn) : Printed :=
  if (message e =? "")%string then Object e else Text (message e).

(** A file-system call that reads. *)
Definition reading {A} (f : Entry -> Result A) : M A :=
  fun w =>
    match f (fs w) with
    | Ok a => Returned a w
    | Throw e => Thrown e w
    end.

(** A file-system call that writes. *)
Definition writing (f : Entry -> Result Entry) : M unit :=
  fun w =>
    match f (fs w) with
    | Ok fs' => Returned tt (mkWorld fs' (stdout w) (stderr w))
    | Throw e => Thrown e w
    end.

(** [xs.forEach(f)] and [for (x of xs) f(x)] *)
Fixpoint forEach {A} (f : A -> M unit) (xs : list A) : M unit :=
  match xs with
  | [] => ret tt
  | x :: r => bind (f x) (fun _ => forEach f r)
  end.

(** [for (x of xs) ys.push(f(x))], the results in the order of [xs]. *)
Fixpoint mapM {A B} (f : A -> M B) (xs : list A) : M (list B) :=
  match xs with
  | [] => ret []
  | x :: r => bind (f x) (fun y => bind (mapM f r) (fun ys => ret (y :: ys)))
  end.

(** The exit code of the process: 0 when the script runs to its end, 1
    for an uncaught exception, the argument of [process.exit]. *)
Definition exitCode {A} (o : Outcome A) : Z :=
  match o with
  | Returned _ _ => 0
  | Thrown _ _ => 1
  | Exited c _ => c
  end.

Definition finalWorld {A} (o : Outcome A) : World :=
  match o with
  | Returned _ w | Thrown _ w | Exited _ w => w
  end.

(** A script that never calls [process.exit]. *)
Definition staysIn {A} (m : M A) : Prop := forall w c w', m w <> Exited c w'.

(** A script that adds the lines [full] to the log when it returns, and
    an initial part of them when it ends in another way. *)
Definition logs {A} (m : M A) (full : list string) : Prop :=
  forall w,
    match m w with
    | Returned _ w' => stdout w' = (stdout w ++ full)%list
    | Thrown _ w' | Exited _ w' =>
        exists l rest, stdout w' = (stdout w ++ l)%list /\ full = (l ++ rest)%list
    end.

End Process.

Declare Scope script_scope.
Delimit Scope script_scope with script.
Notation "x <- m ;; k" := (Process.bind m (fun x => k))
  (at level 61, m at next level, right associativity) : script_scope.
Notation "m ;; k" := (Process.bind m (fun _ => k))
  (at level 61, right associativity) : script_scope.

(** ** The .NET API doc script *)

Module DotnetDocs.
Import Str Js Fs Process Headers Nav Markdown.
Local Open Scope script_scope.

Record Project := mkProject {
  name : string;
  references : option (list string)
}.

Definition projectList : list Project :=
  [ mkProject "NodeApi" None;
    mkProject "NodeApi.DotNetHost" (Some ["NodeApi"]) ].

Definition assemblyNamePrefix : string := "Microsoft.JavaScript.".
Definition docsTargetFramework : string := "net6.0".
Definition docsConfiguration : string := "Release".

(** What [childProcess.execSync] did: the command ran to a zero status,
    or the call threw.  Either way the command may have changed files. *)
Inductive ExecResult :=
| Completed (fs' : Entry)
| Failed (e : Exn) (fs' : Entry).

Section Script.

(** [process.platform], [process.arch] and [__dirname]. *)
Variables platform arch : string.
Variable dirname : Path.

(** The external commands, and the serialisation of the tree by
    [JSON.stringify(nav, null, 2)]. *)
Variable execSync : string -> Entry -> ExecResult.
Variable JSON_stringify : list NavItem -> string.

Definition ridPlatform : string :=
  if (platform =? "win32")%string then "win"
  else if (platform =? "darwin")%string then "osx"
  else platform.
Definition ridArch : string :=
  if (arch =? "ia32")%string then "x86" else arch.
Definition rid : string := ridPlatform ++ "-" ++ ridArch.

Definition rootDir : Path := parent (parent dirname).
Definition srcDir : Path := join rootDir ["src"].
Definition binDir : Path := join rootDir ["out"; "bin"].
Definition outDir : Path := join (parent dirname) ["reference"; "dotnet"].

(** Log a command and execute it synchronously. *)
Definition exec (cmd : string) : M unit :=
  consoleLog cmd ;;
  fun w =>
    match execSync cmd (fs w) with
    | Completed fs' => Returned tt (mkWorld fs' (stdout w) (stderr w))
    | Failed e fs' =>
        let w' := mkWorld fs' (stdout w) (stderr w) in
        match status e with
        | Some st =>
            if (st =? 0)%Z then Thrown e w'
            else Thrown (Error ("Command executed with status: " ++ showZ st)) w'
        | None => Thrown e w'
        end
    end.

Definition buildProjectXmldocs (projectName assemblyName : string) : M Path :=
  let projectDir := join srcDir [projectName] in
  consoleLog ("Building project: " ++ pathString projectDir) ;;
  exec ("dotnet build " ++ quote ++ pathString projectDir ++ quote
        ++ " -c " ++ docsConfiguration ++ " "
        ++ "-f " ++ docsTargetFramework
        ++ " -p:GenerateDocumentationFile=true -p:NoWarn=CS1591 -t:Rebuild") ;;
  let projectBinDir :=
    join binDir [docsConfiguration; projectName; docsTargetFramework; rid] in
  let assemblyFilePath := join projectBinDir [assemblyName ++ ".dll"] in
  found <- reading (fun fs => Ok (existsSync assemblyFilePath fs)) ;;
  if negb found
  then throw (Error ("Assembly file was not found at " ++ pathString assemblyFilePath))
  else
    let xmldocFilePath := join projectBinDir [assemblyName ++ ".xml"] in
    found <- reading (fun fs => Ok (existsSync xmldocFilePath fs)) ;;
    if negb found
    then throw (Error ("XML doc file was not found at " ++ pathString xmldocFilePath))
    else ret assemblyFilePath.

Definition buildProjectMarkdownDocs
    (projectName : string) (projectReferences : option (list string)) : M string :=
  let assemblyName := assemblyNamePrefix ++ projectName in
  assemblyFilePath <- buildProjectXmldocs projectName assemblyName ;;
  let assemblyReferences :=
    map (fun p => assemblyNamePrefix ++ p)
        (match projectReferences with Some ps => ps | None => [] end) in
  consoleLog ("Generating markdown: " ++ assemblyName) ;;
  let xmlDocMdRunCommand :=
    "dotnet run -c Release -f " ++ docsTargetFramework
      ++ " --project " ++ pathString dirname ++ " --" in
  exec (xmlDocMdRunCommand ++ " " ++ quote ++ pathString assemblyFilePath ++ quote
        ++ " " ++ quote ++ pathString outDir ++ quote ++ " --obsolete "
        ++ "--source " ++ quote
        ++ "https://github.com/microsoft/node-api-dotnet/tree/main/src/"
        ++ projectName ++ quote
        ++ String.concat ""
             (map (fun r => " --external " ++ quote ++ r ++ quote) assemblyReferences)) ;;
  let assemblyMarkdownFile := join outDir [assemblyName ++ ".md"] in
  reading (readFileSync assemblyMarkdownFile).

(** Process all generated markdown files and apply some minor edits. *)
Definition processMarkdownFiles (directory : Path) : M unit :=
  files <- reading (readdirRecursive directory) ;;
  forEach
    (fun file : Path =>
       if endsWith ".md" (String.concat "/" file)
       then
         let filePath := join directory file in
         markdown <- reading (readFileSync filePath) ;;
         writing (writeFileSync filePath (processMarkdown markdown))
       else ret tt)
    files.

(** The loop that builds every project and appends its index. *)
Fixpoint mergeIndexes (indexMarkdown : string) (projects : list Project) : M string :=
  match projects with
  | [] => ret indexMarkdown
  | project :: rest =>
      md <- buildProjectMarkdownDocs (name project) (references project) ;;
      mergeIndexes (indexMarkdown ++ md) rest
  end.

(** Remove the assembly headers in the combined index file and insert
    a new top-level header. *)
Definition combinedIndex (indexMarkdown : string) : string :=
  "# .NET API Reference" ++ nl ++ removeLevel1Headers indexMarkdown.

(** The [try] block up to the write of the combined index. *)
Definition buildIndex (projects : list Project) : M unit :=
  present <- reading (fun fs => Ok (existsSync outDir fs)) ;;
  (if present then writing (rmSync outDir) else ret tt) ;;
  writing (mkdirSync outDir) ;;
  indexMarkdown <- mergeIndexes "" projects ;;
  nav <- reading (generateNavigationTreeAt outDir) ;;
  writing (writeFileSync (join outDir ["nav.mts"])
             ("export default " ++ JSON_stringify nav)) ;;
  writing (writeFileSync (join outDir ["index.md"]) (combinedIndex indexMarkdown)).

(** The two commands run for a project, and the four lines that a
    project adds to the log. *)
Definition buildCommand (projectName : string) : string :=
  "dotnet build " ++ quote ++ pathString (join srcDir [projectName]) ++ quote
  ++ " -c " ++ docsConfiguration ++ " "
  ++ "-f " ++ docsTargetFramework
  ++ " -p:GenerateDocumentationFile=true -p:NoWarn=CS1591 -t:Rebuild".

Definition assemblyPath (projectName : string) : Path :=
  join (join binDir [docsConfiguration; projectName; docsTargetFramework; rid])
       [assemblyNamePrefix ++ projectName ++ ".dll"].

Definition xmldocPath (projectName : string) : Path :=
  join (join binDir [docsConfiguration; projectName; docsTargetFramework; rid])
       [assemblyNamePrefix ++ projectName ++ ".xml"].

Definition convertCommand (project : Project) : string :=
  let assemblyReferences :=
    map (fun p => assemblyNamePrefix ++ p)
        (match references project with Some ps => ps | None => [] end) in
  let xmlDocMdRunCommand :=
    "dotnet run -c Release -f " ++ docsTargetFramework
      ++ " --project " ++ pathString dirname ++ " --" in
  xmlDocMdRunCommand ++ " " ++ quote ++ pathString (assemblyPath (name project)) ++ quote
  ++ " " ++ quote ++ pathString outDir ++ quote ++ " --obsolete "
  ++ "--source " ++ quote
  ++ "https://github.com/microsoft/node-api-dotnet/tree/main/src/"
  ++ name project ++ quote
  ++ String.concat ""
       (map (fun r => " --external " ++ quote ++ r ++ quote) assemblyReferences).

Definition buildLog (projectName : string) : list string :=
  [ "Building project: " ++ pathString (join srcDir [projectName]);
    buildCommand projectName ].

Definition projectLog (project : Project) : list string :=
  [ "Building project: " ++ pathString (join srcDir [name project]);
    buildCommand (name project);
    "Generating markdown: " ++ assemblyNamePrefix ++ name project;
    convertCommand project ].


(** The whole script: the [try] block and its [catch] handler. *)
Definition script (projects : list Project) : M unit :=
  tryCatch
    (buildIndex projects ;;
     consoleLog "Post-processing markdown files." ;;
     processMarkdownFiles outDir)
    (fun e => consoleError (messageOr e)).

Definition main : M unit := script projectList.

End Script.

End DotnetDocs.

(** ** The JS API doc script *)

Module JsDocs.
Import Str Js Fs Process.
Local Open Scope script_scope.

(** [typedoc.Models.ReflectionKind], as far as the script tells the
    kinds apart. *)
Inductive ReflectionKind := Variable_ | Function_ | OtherKind.

Record CommentDisplayPart := mkPart { partText : string }.

Record CommentTag := mkTag {
  tag : string;
  content : list CommentDisplayPart
}.

Record Comment := mkComment {
  summary : list CommentDisplayPart;
  blockTags : option (list CommentTag)
}.

Section Script.

(** The value of a literal type, with [JSON.stringify] on the property
    [value] as a template literal prints it. *)
Variable Value : Type.
Variable JSON_stringify : option Value -> string.

(** A type as the renderer receives it: [undefined], or an object with
    the properties [type], [value], [name] and [declaration], each of
    which may be missing. *)
Inductive SomeType : Type :=
| Absent
| TypeObject (type : option string) (value : option Value)
             (name : option string) (declaration : option DeclarationReflection)
with DeclarationReflection : Type :=
| mkDeclaration (signatures : option (list SignatureReflection))
with SignatureReflection : Type :=
| mkSignature (parameters : option (list ParameterReflection)) (type : SomeType)
              (comment : option Comment)
with ParameterReflection : Type :=
| mkParameter (name : string) (type : SomeType) (comment : option Comment).

(** [type?.type] and [type?.name] *)
Definition typeOf (t : SomeType) : option string :=
  match t with TypeObject ty _ _ _ => ty | Absent => None end.
Definition nameOf (t : SomeType) : option string :=
  match t with TypeObject _ _ n _ => n | Absent => None end.
Definition valueOf (t : SomeType) : option Value :=
  match t with TypeObject _ v _ _ => v | Absent => None end.

Definition isLiteral (t : SomeType) : bool :=
  match typeOf t with Some ty => (ty =? "literal")%string | None => false end.

(** Text of a string property in a template literal. *)
Definition shown (o : option string) : string :=
  match o with Some s => s | None => "undefined" end.

Fixpoint typeToMarkdown (type : SomeType) : Result string :=
  if isLiteral type then Ok (JSON_stringify (valueOf type))
  else if truthyStr (nameOf type) then Ok (shown (nameOf type))
  else
    match type with
    | Absent => Throw (TypeError "declaration")
    | TypeObject _ _ _ declaration =>
        match declaration with
        | Some (mkDeclaration (Some [mkSignature parameters returnType _])) =>
            match parameters with
            | None => Throw (TypeError "map")
            | Some ps =>
                bindR
                  ((fix each (l : list ParameterReflection) : Result (list string) :=
                      match l with
                      | [] => Ok []
                      | mkParameter pname ptype _ :: r =>
                          bindR (typeToMarkdown ptype) (fun t =>
                          bindR (each r) (fun ts =>
                          Ok ((pname ++ ": " ++ t) :: ts)))
                      end) ps)
                  (fun rendered =>
                     bindR (typeToMarkdown returnType) (fun ret =>
                     Ok ("(" ++ String.concat ", " rendered ++ ") => " ++ ret)))
            end
        | _ => Ok "unknown"
        end
    end.

(** A type tree as the renderer needs it: no type is absent, and a
    declaration with a single signature has its parameter array. *)
Fixpoint conforming (t : SomeType) : bool :=
  match t with
  | Absent => false
  | TypeObject _ _ _ declaration =>
      match declaration with
      | Some (mkDeclaration (Some [mkSignature parameters returnType _])) =>
          match parameters with
          | None => false
          | Some ps =>
              forallb (fun p => match p with mkParameter _ ptype _ => conforming ptype end) ps
              && conforming returnType
          end
      | _ => true
      end
  end.

(** [(comment || []).map((part) => part.text).join('')] *)
Definition commentToMarkdown (comment : option (list CommentDisplayPart)) : string :=
  String.concat ""
    (map partText (match comment with Some parts => parts | None => [] end)).

Record Reflection := mkReflection {
  reflName : string;
  kind : ReflectionKind;
  reflType : SomeType;
  reflComment : option Comment;
  reflSignatures : option (list SignatureReflection)
}.

Record ProjectReflection := mkProjectReflection {
  projectName : string;
  children : option (list Reflection)
}.

Definition fence : string := "```".

Definition convertPropertyReflectionToMarkdown (item : Reflection) : Result string :=
  bindR (typeToMarkdown (reflType item)) (fun t =>
  Ok (nl ++ "### " ++ reflName item ++ " property" ++ nl
      ++ fence ++ "TypeScript" ++ nl
      ++ "const dotnet." ++ reflName item ++ ": " ++ t ++ nl
      ++ fence ++ nl
      ++ commentToMarkdown (option_map summary (reflComment item)) ++ nl)).

Definition parameterName (p : ParameterReflection) : string :=
  match p with mkParameter n _ _ => n end.
Definition parameterType (p : ParameterReflection) : SomeType :=
  match p with mkParameter _ t _ => t end.
Definition parameterComment (p : ParameterReflection) : option Comment :=
  match p with mkParameter _ _ c => c end.

(** More than one parameter: one per line, each followed by a comma. *)
Definition layoutParameters (parameters : list string) : list string :=
  if (1 <? List.length parameters)%nat
  then
    let ps := map (fun p => nl ++ "    " ++ p ++ ",") parameters in
    let final := last ps "" ++ nl in
    (removelast ps ++ [final])%list
  else parameters.

Definition findTag (t : string) (tags : list CommentTag) : option CommentTag :=
  find (fun x => (tag x =? t)%string) tags.

Definition signatureToMarkdown (itemName : string) (signature : SignatureReflection)
  : Result string :=
  match signature with
  | mkSignature parameters returnType comment =>
      match parameters with
      | None => Throw (TypeError "map")
      | Some ps =>
          bindR (mapR (fun param =>
                   bindR (typeToMarkdown (parameterType param)) (fun t =>
                   Ok (parameterName param ++ ": " ++ t))) ps)
            (fun parameters =>
          let parameters := layoutParameters parameters in
          let head :=
            fence ++ "TypeScript" ++ nl
            ++ "dotnet." ++ itemName ++ "(" ++ String.concat "" parameters ++ "): "
            ++ shown (nameOf returnType) ++ nl
            ++ fence ++ nl
            ++ commentToMarkdown (option_map summary comment) ++ nl in
          let described :=
            String.concat ""
              (map (fun param =>
                      "- **" ++ parameterName param ++ "**: "
                      ++ commentToMarkdown (option_map summary (parameterComment param))
                      ++ nl)
                   (filter (fun p => match parameterComment p with
                                     | Some _ => true
                                     | None => false
                                     end) ps)) in
          let tags :=
            match comment with
            | Some c =>
                match blockTags c with
                | Some (t :: ts) =>
                    (match findTag "@returns" (t :: ts) with
                     | Some r => "- Returns: " ++ commentToMarkdown (Some (content r)) ++ nl
                     | None => ""
                     end)
                    ++
                    (match findTag "@description" (t :: ts) with
                     | Some d => nl ++ commentToMarkdown (Some (content d)) ++ nl
                     | None => ""
                     end)
                | _ => ""
                end
            | None => ""
            end in
          Ok (head ++ described ++ tags))
      end
  end.

Definition convertFunctionReflectionToMarkdown (item : Reflection) : Result string :=
  match reflSignatures item with
  | None => Throw (Error "item.signatures is not iterable")
  | Some sigs =>
      bindR (mapR (signatureToMarkdown (reflName item)) sigs) (fun parts =>
      Ok (nl ++ "### " ++ reflName item ++ " method" ++ nl ++ String.concat "" parts))
  end.

(** The code group that shows how to import package [pkg]. *)
Definition codeGroup (pkg : string) : string :=
  nl ++ "  ::: code-group" ++ nl
  ++ "  " ++ fence ++ "JavaScript [ES (TS or JS)]" ++ nl
  ++ "  import dotnet from '" ++ pkg ++ "';" ++ nl
  ++ "  " ++ fence ++ nl
  ++ "  " ++ fence ++ "TypeScript [CommonJS (TS)]" ++ nl
  ++ "  import * as dotnet from '" ++ pkg ++ "';" ++ nl
  ++ "  " ++ fence ++ nl
  ++ "  " ++ fence ++ "JavaScript [CommonJS (JS)]" ++ nl
  ++ "  const dotnet = require('" ++ pkg ++ "');" ++ nl
  ++ "  " ++ fence ++ nl
  ++ "  :::" ++ nl.

Definition hasKind (k : ReflectionKind) (item : Reflection) : bool :=
  match k, kind item with
  | Variable_, Variable_ | Function_, Function_ => true
  | _, _ => false
  end.

(** [JSON.parse] of the exported tree. *)
Variable JSON_parse : string -> Result ProjectReflection.

Definition convertJsonToMarkdown (json : string) : Result string :=
  bindR (JSON_parse json) (fun project =>
  let markdown :=
    "# " ++ projectName project ++ " package" ++ nl
    ++ codeGroup (projectName project)
    ++ "To load a specific version of .NET, append the target framework moniker to "
    ++ "the package name:" ++ nl
    ++ codeGroup (projectName project ++ "/net6.0")
    ++ "Currently the supported target frameworks are `net472`, `net6.0`, and `net8.0`." in
  match children project with
  | None => Throw (TypeError "filter")
  | Some items =>
      let propertyReflections := filter (hasKind Variable_) items in
      bindR (mapR convertPropertyReflectionToMarkdown propertyReflections) (fun props =>
      let markdown :=
        match propertyReflections with
        | [] => markdown
        | _ => markdown ++ nl ++ "## Properties" ++ nl ++ String.concat "" props
        end in
      let functionReflections := filter (hasKind Function_) items in
      bindR (mapR convertFunctionReflectionToMarkdown functionReflections) (fun funs =>
      match functionReflections with
      | [] => Ok markdown
      | _ => Ok (markdown ++ nl ++ "## Methods" ++ nl ++ String.concat "" funs)
      end))
  end).

(** [__dirname] and TypeDoc: the application that [bootstrap] makes
    from an entry point and a [tsconfig.json], its conversion of the
    declarations, and the JSON file it writes. *)
Variable dirname : Path.
Variables App Converted : Type.
Variable bootstrap : Path -> Path -> Entry -> Result App.
Variable convert : App -> Entry -> Result (option Converted).
Variable generateJson : App -> Converted -> Path -> Entry -> Result Entry.

Definition srcDir : Path := join (parent (parent dirname)) ["src"; "node-api-dotnet"].
Definition outDir : Path := join (parent dirname) ["reference"; "js"].
Definition packageTypedefsFile : Path := join srcDir ["index.d.ts"].

(** The first two statements: a fresh, empty output directory. *)
Definition resetOutDir : M unit :=
  present <- reading (fun fs => Ok (existsSync outDir fs)) ;;
  (if present then writing (rmSync outDir) else ret tt) ;;
  writing (mkdirSync outDir).

Definition exportJsdocToJson : M string :=
  resetOutDir ;;
  found <- reading (fun fs => Ok (existsSync packageTypedefsFile fs)) ;;
  if negb found
  then throw (Error ("File not found: " ++ pathString packageTypedefsFile))
  else
    app <- reading (bootstrap packageTypedefsFile
                      (join (parent packageTypedefsFile) ["tsconfig.json"])) ;;
    project <- reading (convert app) ;;
    match project with
    | None => throw (Error "Failed to convert TypeScript to documentation.")
    | Some project =>
        let jsonFile := join outDir ["api.json"] in
        writing (generateJson app project jsonFile) ;;
        reading (readFileSync jsonFile)
    end.

(** The promise chain of the script and its [catch] handler. *)
Definition main : M unit :=
  tryCatch
    (json <- exportJsdocToJson ;;
     md <- reading (fun _ => convertJsonToMarkdown json) ;;
     writing (writeFileSync (join outDir ["index.md"]) md))
    (fun e => consoleError (messageOr e) ;; processExit 1).

End Script.

End JsDocs.

(** ** Concrete runs *)

Module Scenarios.
Import Str Js Fs Process Nav.

Definition scriptsDir : Path := ["repo"; "docs"; "scripts"].

Definition emptyWorld : World := mkWorld (Dir []) [] [].

(** A build that exits with status 1 and touches nothing. *)
Definition failingBuild (cmd : string) (fs : Entry) : DotnetDocs.ExecResult :=
  DotnetDocs.Failed (mkExn ("Command failed: " ++ cmd) (Some 1%Z)) fs.

(** Create the directory of a file and write the file. *)
Definition put (fs : Entry) (file : Path * string) : Entry :=
  match mkdirSync (parent (fst file)) fs with
  | Ok fs1 =>
      match writeFileSync (fst file) (snd file) fs1 with
      | Ok fs2 => fs2
      | Throw _ => fs
      end
  | Throw _ => fs
  end.

Definition binOf (project : string) : Path :=
  ["repo"; "out"; "bin"; "Release"; project; "net6.0"; "linux-x64"].

Definition nodeApiIndex : string :=
  "# Microsoft.JavaScript.NodeApi assembly" ++ nl ++
  "## Microsoft.JavaScript.NodeApi namespace" ++ nl ++
  "| public type | description |" ++ nl ++
  "| --- | --- |" ++ nl ++
  "| struct JSValue | A value; see {@link JSObject} |" ++ nl.

Definition hostIndex : string :=
  "# Microsoft.JavaScript.NodeApi.DotNetHost assembly" ++ nl ++
  "## Microsoft.JavaScript.NodeApi.DotNetHost namespace" ++ nl ++
  "| public type | description |" ++ nl ++
  "| --- | --- |" ++ nl ++
  "| class ManagedHost | Loads assemblies |" ++ nl.

(** Tools that succeed: whatever the command, both assemblies with
    their XML files and both per-assembly indexes are in place after
    it. *)
Definition workingTools (cmd : string) (fs : Entry) : DotnetDocs.ExecResult :=
  DotnetDocs.Completed
    (fold_left put
       [ (join (binOf "NodeApi") ["Microsoft.JavaScript.NodeApi.dll"], "");
         (join (binOf "NodeApi") ["Microsoft.JavaScript.NodeApi.xml"], "<doc/>");
         (join (binOf "NodeApi.DotNetHost")
               ["Microsoft.JavaScript.NodeApi.DotNetHost.dll"], "");
         (join (binOf "NodeApi.DotNetHost")
               ["Microsoft.JavaScript.NodeApi.DotNetHost.xml"], "<doc/>");
         (["repo"; "docs"; "reference"; "dotnet"; "Microsoft.JavaScript.NodeApi.md"],
          nodeApiIndex);
         (["repo"; "docs"; "reference"; "dotnet";
           "Microsoft.JavaScript.NodeApi.DotNetHost.md"], hostIndex) ]
       fs).

Definition noJson (nav : list NavItem) : string := "[]".

(** A Markdown file whose second header carries an overload count. *)
Definition overloadSecond : Entry :=
  Dir [("Foo.md", File ("## Bar" ++ nl ++ "## Foo (3 overloads)" ++ nl))].

(** A directory with three Markdown files, one of them with a directory
    of its own. *)
Definition threeEntries : list (string * Entry) :=
  [ ("b.md", File ("## B namespace" ++ nl));
    ("a.md", File ("## A1" ++ nl ++ "## A2" ++ nl));
    ("a-b.md", File ("## AB structure" ++ nl));
    ("b", Dir [("T.md", File ("# T class" ++ nl))]);
    ("notes.txt", File "## not markdown") ].

Definition threeFiles : Entry := Dir threeEntries.

(** The tree that [generateNavigationTree] returns for [threeFiles]. *)
Definition threeFilesNav : list NavItem :=
  [ navItemOf None "a" "A1" None;
    navItemOf None "a" "A2" None;
    navItemOf None "a-b" "AB structure" None;
    navItemOf None "b" "B namespace"
      (Some [navItemOf (Some ["b"]) "T" "T class" None]) ].

(** Generated files before post-processing: two Markdown files, one of
    them in a subdirectory, and a file of another kind. *)
Definition generatedFiles : World :=
  mkWorld
    (Dir [("out",
           Dir [("a.md", File "| x;y |");
                ("nav.mts", File "export default []");
                ("T", Dir [("c.md", File "# T")])])])
    [] [].

Definition generatedListing : list Path :=
  [["a.md"]; ["nav.mts"]; ["T"]; ["T"; "c.md"]].

(** A parsed project with one variable, whatever the JSON text. *)
Definition parseOneVariable (json : string)
  : Result (JsDocs.ProjectReflection unit) :=
  Ok (JsDocs.mkProjectReflection unit "node-api-dotnet"
        (Some [JsDocs.mkReflection unit "runtimeVersion" JsDocs.Variable_
                 (JsDocs.TypeObject unit (Some "intrinsic") None (Some "string") None)
                 None None])).

(** A stand-in for TypeDoc that starts and converts nothing. *)
Definition bootstrapOk (entry tsconfig : Path) (fs : Entry) : Result unit := Ok tt.
Definition convertNothing (app : unit) (fs : Entry) : Result (option unit) := Ok None.
Definition generateNoJson (app project : unit) (file : Path) (fs : Entry)
  : Result Entry := Ok fs.
Definition parseNothing (json : string)
  : Result (JsDocs.ProjectReflection unit) := Throw (Error "Unexpected end of JSON input").
Definition showUnit (v : option unit) : string := "null".

(** A checkout with the declaration file, and an earlier [index.md]. *)
Definition withTypedefs : World :=
  mkWorld
    (Dir [("repo",
           Dir [("src", Dir [("node-api-dotnet", Dir [("index.d.ts", File "")])]);
                ("docs", Dir [("reference", Dir [("js", Dir [("index.md", File "old")])])])])])
    [] [].

End Scenarios.

(** * Properties *)

Module StrFacts.
Import Str.

Lemma append_assoc (a b c : string) : (a ++ b) ++ c = a ++ (b ++ c).
Proof. induction a as [|x a IH]; simpl; [reflexivity | now rewrite IH]. Qed.

Lemma append_empty_r (a : string) : a ++ "" = a.
Proof. induction a as [|x a IH]; simpl; [reflexivity | now rewrite IH]. Qed.

Lemma length_append (a b : string) :
  String.length (a ++ b) = String.length a + String.length b.
Proof. induction a as [|x a IH]; simpl; [reflexivity | now rewrite IH]. Qed.

End StrFacts.

Module MarkdownFacts.
Import Str StrFacts Markdown.

Lemma replaceInCells_pass ch ent before s :
  replaceInCells ch ent before s = pass ch ent (reachesPipe before) s.
Proof.
  revert before; induction s as [|c rest IH]; intros before; simpl; [reflexivity|].
  rewrite (IH (String c before)); simpl.
  destruct (isPipe c); reflexivity.
Qed.

Lemma reachesPipe_app a b :
  reachesPipe (a ++ b) = reachesPipe a || reachesPipe b.
Proof.
  induction a as [|c a IH]; simpl; [reflexivity|].
  destruct (isPipe c); simpl; auto.
Qed.

Lemma reachesPipe_pass ch ent seen s :
  isPipe ch = false -> reachesPipe ent = false ->
  reachesPipe (pass ch ent seen s) = reachesPipe s.
Proof.
  intros Hch Hent; revert seen; induction s as [|c rest IH]; intros seen; simpl; [reflexivity|].
  destruct ((c =? ch)%char && seen && reachesPipe rest) eqn:E.
  - apply andb_true_iff in E as [E _]. apply andb_true_iff in E as [E _].
    apply Ascii.eqb_eq in E; subst c.
    rewrite reachesPipe_app, Hent, Hch, IH. reflexivity.
  - simpl. rewrite IH. reflexivity.
Qed.

Lemma escape_fused b s :
  pass "}" "&rbrace;" b (pass "{" "&lbrace;" b (pass ";" "&semi;" b s)) = fused b s.
Proof.
  revert b; induction s as [|c rest IH]; intros b; [reflexivity|].
  cbn [fused]. rewrite <- IH. unfold entityOf.
  destruct (reachesPipe rest) eqn:R;
  destruct (Ascii.eqb_spec c ";") as [->|Hs];
    [| destruct (Ascii.eqb_spec c "{") as [->|Hl];
       [| destruct (Ascii.eqb_spec c "}") as [->|Hr] ] | |
       destruct (Ascii.eqb_spec c "{") as [->|Hl];
       [| destruct (Ascii.eqb_spec c "}") as [->|Hr] ] ];
  destruct b; cbn;
  repeat first
    [ rewrite reachesPipe_pass by reflexivity
    | rewrite R
    | match goal with
      | |- context [(?x =? ?y)%char] =>
          destruct (Ascii.eqb_spec x y); [congruence|]
      end
    | progress cbn ];
  reflexivity.
Qed.

Lemma splitPipes_cons s : exists h t, splitPipes s = h :: t.
Proof.
  destruct s as [|c r]; simpl; [eauto|].
  destruct (isPipe c); [eauto|]. destruct (splitPipes r); eauto.
Qed.

Lemma splitPipes_single s :
  reachesPipe s = false -> splitPipes s = [s].
Proof.
  induction s as [|c r IH]; simpl; [reflexivity|].
  destruct (isPipe c); [discriminate|]. intros H. now rewrite IH.
Qed.

Lemma splitPipes_several s :
  reachesPipe s = true -> exists h x t, splitPipes s = h :: x :: t.
Proof.
  induction s as [|c r IH]; simpl; [discriminate|].
  destruct (isPipe c).
  - intros _. destruct (splitPipes_cons r) as (h & t & ->). eauto.
  - intros H. destruct (IH H) as (h & x & t & ->). eauto.
Qed.

Lemma fused_inside s : fused true s = closeCells (splitPipes s).
Proof.
  induction s as [|c r IH]; [reflexivity|].
  cbn [fused splitPipes]. rewrite orb_true_r, IH. cbn [andb].
  destruct (isPipe c) eqn:Ec.
  - apply Ascii.eqb_eq in Ec; subst c.
    destruct (splitPipes_cons r) as (h & t & ->).
    destruct (reachesPipe r); reflexivity.
  - destruct (reachesPipe r) eqn:R.
    + destruct (splitPipes_several r R) as (h & x & t & ->).
      cbn [closeCells escapeCell]. now rewrite !append_assoc.
    + rewrite (splitPipes_single r R). reflexivity.
Qed.

Lemma fused_outside s : fused false s = escapeCells_spec s.
Proof.
  unfold escapeCells_spec.
  induction s as [|c r IH]; [reflexivity|].
  cbn [fused splitPipes andb]. rewrite orb_false_r.
  destruct (isPipe c) eqn:Ec.
  - apply Ascii.eqb_eq in Ec; subst c. rewrite fused_inside.
    destruct (splitPipes_cons r) as (h & t & ->). reflexivity.
  - rewrite IH. destruct (splitPipes r) as [|h [|x t]]; reflexivity.
Qed.

Lemma escapeTableChars_fused s : escapeTableChars s = fused false s.
Proof.
  unfold escapeTableChars. rewrite !replaceInCells_pass. apply escape_fused.
Qed.



Lemma escapeTableChars_frontMatter t :
  escapeTableChars (frontMatter ++ t) = frontMatter ++ escapeTableChars t.
Proof. rewrite !escapeTableChars_fused. reflexivity. Qed.

Lemma length_entityOf c : 1 <= String.length (entityOf c).
Proof.
  unfold entityOf.
  repeat match goal with |- context [if ?b then _ else _] => destruct b end;
    simpl; lia.
Qed.

Lemma length_fused b s : String.length s <= String.length (fused b s).
Proof.
  revert b; induction s as [|c r IH]; intros b; simpl; [lia|].
  rewrite length_append. specialize (IH (isPipe c || b)).
  pose proof (length_entityOf c).
  destruct (b && reachesPipe r); simpl; lia.
Qed.

Lemma length_escapeTableChars s :
  String.length s <= String.length (escapeTableChars s).
Proof. rewrite escapeTableChars_fused. apply length_fused. Qed.

(** C3, as the code has it.  A second application is never a no-op: it
    puts a second front-matter block in front of the first and runs the
    three replaces over the already escaped text. *)
Theorem processMarkdown_twice s :
  processMarkdown (processMarkdown s)
    = frontMatter ++ frontMatter ++ escapeTableChars (escapeTableChars s) /\
  processMarkdown (processMarkdown s) <> processMarkdown s.
Proof.
  assert (E : processMarkdown (processMarkdown s)
              = frontMatter ++ frontMatter ++ escapeTableChars (escapeTableChars s)).
  { unfold processMarkdown. now rewrite escapeTableChars_frontMatter. }
  split; [exact E|].
  rewrite E. unfold processMarkdown. intros H.
  apply (f_equal String.length) in H.
  rewrite !length_append in H.
  pose proof (length_escapeTableChars (escapeTableChars s)).
  assert (0 < String.length frontMatter) by (cbn; lia). lia.
Qed.

(** C3, refuted: on a table row the second application both repeats the
    front matter and escapes the semicolon of the reference written by
    the first. *)
Lemma processMarkdown_not_idempotent :
  processMarkdown (processMarkdown "| a;b |")
    = frontMatter ++ frontMatter ++ "| a&semi&semi;b |" /\
  processMarkdown (processMarkdown "| a;b |") <> processMarkdown "| a;b |".
Proof. split; [reflexivity | discriminate]. Qed.

(** C5, as the code has it.  The block has four keys between two [---]
    fences: whatever the file held, it makes up the first six lines. *)
Theorem processMarkdown_frontMatter_first s :
  unlines (firstn 6 (lines (processMarkdown s))) = frontMatter /\
  firstn 6 (lines (processMarkdown s))
    = ["---"; "editLink: false"; "prev: false"; "next: false";
       "outline: false"; "---"] /\
  exists body, processMarkdown s = frontMatter ++ body.
Proof.
  assert (L : firstn 6 (lines (processMarkdown s))
    = ["---"; "editLink: false"; "prev: false"; "next: false";
       "outline: false"; "---"]).
  { unfold processMarkdown. generalize (escapeTableChars s) as body. intros body.
    cbn. destruct (lines body); reflexivity. }
  split; [now rewrite L|]. split; [exact L|].
  now exists (escapeTableChars s).
Qed.

(** C5, refuted as worded: the first five lines stop short of the closing
    fence, so they are not the front-matter block. *)
Lemma frontMatter_is_not_five_lines :
  unlines (firstn 5 (lines (processMarkdown ""))) <> frontMatter /\
  nth 5 (lines (processMarkdown "")) "" = "---".
Proof. split; [discriminate | reflexivity]. Qed.

End MarkdownFacts.

Module HeadersFacts.
Import Str StrFacts Headers.

Lemma lines_cons s : exists l ls, lines s = l :: ls.
Proof.
  destruct s as [|c r]; simpl; [eauto|].
  destruct (isLineTerminator c); [eauto|]. destruct (lines r); eauto.
Qed.

(** A literal without line terminators is found at the start of a text
    exactly when it is found at the start of its first line. *)
Lemma startsWith_first_line p s :
  (forall c, In c (list_ascii_of_string p) -> isLineTerminator c = false) ->
  startsWith p s = startsWith p (hd EmptyString (lines s)).
Proof.
  unfold startsWith. revert s; induction p as [|a p IH]; intros s Hp.
  - destruct s, (hd EmptyString (lines _)); reflexivity.
  - destruct s as [|c r]; [reflexivity|]. simpl lines.
    destruct (isLineTerminator c) eqn:Ec.
    + simpl. destruct (ascii_dec a c) as [->|]; [|reflexivity].
      rewrite Hp in Ec by (simpl; auto). discriminate.
    + destruct (lines_cons r) as (l & ls & E). rewrite E. simpl.
      destruct (ascii_dec a c); [|reflexivity].
      rewrite (IH r) by (intros; apply Hp; simpl; auto).
      now rewrite E.
Qed.

Lemma isLevel1Header_first_line s :
  isLevel1Header s = isLevel1Header (hd EmptyString (lines s)).
Proof.
  apply startsWith_first_line. simpl.
  intros c [<-|[<-|[]]]; reflexivity.
Qed.

Lemma lines_removeH1 s :
  lines (removeH1 LineStart s) = map withoutHeader (lines s) /\
  lines (removeH1 Copy s)
    = hd EmptyString (lines s) :: map withoutHeader (tl (lines s)) /\
  lines (removeH1 Drop s) = EmptyString :: map withoutHeader (tl (lines s)).
Proof.
  induction s as [|c r (IHs & IHc & IHd)]; [repeat split|].
  pose proof (isLevel1Header_first_line (String c r)) as Hh.
  cbn [removeH1 lines] in *.
  destruct (isLineTerminator c) eqn:Ec.
  - cbn [lines]. rewrite Ec, IHs. repeat split.
  - destruct (lines_cons r) as (l & ls & E). rewrite E in *.
    cbn [hd tl map] in *. fold (isLevel1Header (String c r)).
    unfold withoutHeader at 1. rewrite <- Hh.
    destruct (isLevel1Header (String c r)).
    + cbn [lines]. rewrite Ec, IHc, IHd. repeat split.
    + cbn [lines]. rewrite Ec, IHc, IHd. repeat split.
Qed.

Lemma withoutHeader_not_header l : isLevel1Header (withoutHeader l) = false.
Proof.
  unfold withoutHeader. destruct (isLevel1Header l) eqn:E; [reflexivity | exact E].
Qed.

Lemma filter_headers_removed ls :
  filter isLevel1Header (map withoutHeader ls) = [].
Proof.
  induction ls as [|l ls IH]; simpl; [reflexivity|].
  now rewrite withoutHeader_not_header.
Qed.

Lemma lines_app_terminator a c b :
  isLineTerminator c = true ->
  lines (a ++ String c b) = (lines a ++ lines b)%list.
Proof.
  intros Hc. induction a as [|x a IH]; simpl.
  - now rewrite Hc.
  - rewrite IH. destruct (isLineTerminator x); [reflexivity|].
    destruct (lines_cons a) as (l & ls & ->). reflexivity.
Qed.

(** When every text ends with a line break (or is empty), the lines of
    the texts that are not empty are lines of their concatenation. *)
Lemma lines_of_concat mds :
  Forall (fun md => md = EmptyString \/ endsWithLineBreak md) mds ->
  forall md line, In md mds -> In line (lines md) -> line <> EmptyString ->
  In line (lines (String.concat "" mds)).
Proof.
  induction 1 as [|x xs Hx _ IH]; intros md line Hmd Hline Hne; [destruct Hmd|].
  assert (E : String.concat "" (x :: xs) = x ++ String.concat "" xs).
  { destruct xs; simpl; [now rewrite append_empty_r | reflexivity]. }
  rewrite E. destruct Hx as [->|(a & c & -> & Hc)].
  - destruct Hmd as [<-|Hmd]; [|exact (IH _ _ Hmd Hline Hne)].
    simpl in Hline. destruct Hline as [<-|[]]. congruence.
  - rewrite append_assoc. cbn [append].
    rewrite (lines_app_terminator _ _ _ Hc). apply in_or_app.
    destruct Hmd as [<-|Hmd]; [|right; exact (IH _ _ Hmd Hline Hne)].
    rewrite (lines_app_terminator _ _ _ Hc) in Hline.
    apply in_app_or in Hline as [Hl|Hl]; [now left|].
    simpl in Hl. destruct Hl as [<-|[]]. congruence.
Qed.

End HeadersFacts.

Module FsFacts.
Import Js Fs.

Lemma lookupEntry_setEntry n e es : lookupEntry n (setEntry n e es) = Some e.
Proof.
  induction es as [|[m x] es IH]; simpl.
  - now rewrite String.eqb_refl.
  - destruct (String.eqb_spec m n) as [->|Hn]; simpl.
    + now rewrite String.eqb_refl.
    + apply String.eqb_neq in Hn. now rewrite Hn.
Qed.

(** After a successful write the file is there with that content. *)
Lemma lookup_writeAt full p c fs fs' :
  writeAt full p c fs = Ok fs' -> lookup p fs' = Some (File c).
Proof.
  revert fs fs'; induction p as [|n p IH]; intros fs fs' H.
  - destruct fs; discriminate.
  - destruct fs as [|es]; [discriminate|]. cbn [writeAt] in H.
    destruct p as [|n' p'].
    + destruct (lookupEntry n es) as [[|]|]; inversion H; subst; clear H;
        cbn [lookup]; now rewrite lookupEntry_setEntry.
    + destruct (lookupEntry n es) as [x|]; [|discriminate].
      destruct (writeAt full (n' :: p') c x) as [x'|] eqn:E; [|discriminate].
      inversion H; subst; clear H.
      cbn [lookup]. rewrite lookupEntry_setEntry. exact (IH _ _ E).
Qed.

Lemma readFileSync_writeFileSync p c fs fs' :
  writeFileSync p c fs = Ok fs' -> readFileSync p fs' = Ok c.
Proof.
  intros H. unfold readFileSync. now rewrite (lookup_writeAt _ _ _ _ _ H).
Qed.

End FsFacts.

Module ProcessFacts.
Import Js Fs Process.

Lemma bind_returned {A B} (m : M A) (k : A -> M B) w b w' :
  bind m k w = Returned b w' ->
  exists a w1, m w = Returned a w1 /\ k a w1 = Returned b w'.
Proof.
  unfold bind. destruct (m w) as [a w1| |]; try discriminate. eauto.
Qed.

Lemma writing_returned f w u w' :
  writing f w = Returned u w' ->
  f (fs w) = Ok (fs w') /\ stdout w' = stdout w /\ stderr w' = stderr w.
Proof.
  unfold writing. destruct (f (fs w)); [|discriminate].
  intros H; inversion H; subst; auto.
Qed.

Lemma staysIn_ret {A} (a : A) : staysIn (ret a).
Proof. intros w c w'; discriminate. Qed.

Lemma staysIn_throw {A} e : staysIn (@throw A e).
Proof. intros w c w'; discriminate. Qed.

Lemma staysIn_bind {A B} (m : M A) (k : A -> M B) :
  staysIn m -> (forall a, staysIn (k a)) -> staysIn (bind m k).
Proof.
  intros Hm Hk w c w'. unfold bind.
  destruct (m w) as [a w1|e w1|c1 w1] eqn:E.
  - apply Hk.
  - discriminate.
  - exfalso. exact (Hm _ _ _ E).
Qed.

Lemma staysIn_reading {A} (f : Entry -> Result A) : staysIn (reading f).
Proof. intros w c w'. unfold reading. destruct (f (fs w)); discriminate. Qed.

Lemma staysIn_writing f : staysIn (writing f).
Proof. intros w c w'. unfold writing. destruct (f (fs w)); discriminate. Qed.

Lemma staysIn_consoleLog s : staysIn (consoleLog s).
Proof. intros w c w'; discriminate. Qed.

Lemma staysIn_consoleError p : staysIn (consoleError p).
Proof. intros w c w'; discriminate. Qed.

Lemma staysIn_forEach {A} (f : A -> M unit) xs :
  (forall x, staysIn (f x)) -> staysIn (forEach f xs).
Proof.
  intros Hf. induction xs as [|x xs IH]; simpl.
  - apply staysIn_ret.
  - apply staysIn_bind; auto.
Qed.

Create HintDb stays.
#[export] Hint Resolve staysIn_ret staysIn_throw staysIn_reading staysIn_writing
  staysIn_consoleLog staysIn_consoleError : stays.

End ProcessFacts.

Module DotnetDocsFacts.
Import Str StrFacts Js Fs FsFacts Process ProcessFacts Headers HeadersFacts Nav Markdown.
Import DotnetDocs Scenarios.
Local Open Scope script_scope.

Section Script.

Variables platform arch : string.
Variable dirname : Path.
Variable execSync : string -> Entry -> ExecResult.
Variable JSON_stringify : list NavItem -> string.

Lemma staysIn_exec cmd : staysIn (exec execSync cmd).
Proof.
  apply staysIn_bind; auto with stays.
  intros _ w c w'. destruct (execSync cmd (fs w)) as [|e fs1]; [discriminate|].
  destruct (status e) as [st|]; [destruct (st =? 0)%Z|]; discriminate.
Qed.

Lemma staysIn_buildProjectXmldocs p a :
  staysIn (buildProjectXmldocs platform arch dirname execSync p a).
Proof.
  unfold buildProjectXmldocs.
  repeat first
    [ apply staysIn_exec
    | apply staysIn_bind; [|intros ?]
    | match goal with |- staysIn (if ?b then _ else _) => destruct b end
    | solve [auto with stays] ].
Qed.

Lemma staysIn_buildProjectMarkdownDocs p r :
  staysIn (buildProjectMarkdownDocs platform arch dirname execSync p r).
Proof.
  unfold buildProjectMarkdownDocs.
  repeat first
    [ apply staysIn_exec
    | apply staysIn_buildProjectXmldocs
    | apply staysIn_bind; [|intros ?]
    | solve [auto with stays] ].
Qed.

Lemma staysIn_mergeIndexes acc ps :
  staysIn (mergeIndexes platform arch dirname execSync acc ps).
Proof.
  revert acc; induction ps as [|p ps IH]; intros acc; simpl.
  - auto with stays.
  - apply staysIn_bind; [apply staysIn_buildProjectMarkdownDocs | auto].
Qed.

Lemma staysIn_processMarkdownFiles d : staysIn (processMarkdownFiles d).
Proof.
  apply staysIn_bind; [auto with stays|]. intros files.
  apply staysIn_forEach. intros file.
  destruct (endsWith ".md" _); [|auto with stays].
  apply staysIn_bind; auto with stays.
Qed.

Lemma staysIn_buildIndex ps :
  staysIn (buildIndex platform arch dirname execSync JSON_stringify ps).
Proof.
  unfold buildIndex.
  repeat first
    [ apply staysIn_mergeIndexes
    | apply staysIn_bind; [|intros ?]
    | match goal with |- staysIn (if ?b then _ else _) => destruct b end
    | solve [auto with stays] ].
Qed.

(** The exit code of the .NET doc script is 0 on every run: nothing in
    it calls [process.exit], and the handler swallows the exception. *)
Lemma script_exit_code_zero ps w :
  exitCode (script platform arch dirname execSync JSON_stringify ps w) = 0%Z.
Proof.
  unfold script, tryCatch.
  match goal with |- context [match ?b w with _ => _ end] =>
    assert (Hs : staysIn b)
  end.
  { repeat first
      [ apply staysIn_buildIndex | apply staysIn_processMarkdownFiles
      | apply staysIn_bind; [|intros ?] | solve [auto with stays] ]. }
  match goal with |- context [match ?b w with _ => _ end] =>
    destruct (b w) as [u w1|e w1|c w1] eqn:E
  end; try reflexivity.
  exfalso. exact (Hs _ _ _ E).
Qed.

Lemma concat_empty_cons x xs :
  String.concat "" (x :: xs) = x ++ String.concat "" xs.
Proof. destruct xs; simpl; [now rewrite append_empty_r | reflexivity]. Qed.

(** The markdown of one project, as the loop obtains it. *)
Let docsOf (p : Project) : M string :=
  buildProjectMarkdownDocs platform arch dirname execSync (name p) (references p).

Lemma mergeIndexes_mapM ps acc w :
  mergeIndexes platform arch dirname execSync acc ps w
  = match mapM docsOf ps w with
    | Returned mds w' => Returned (acc ++ String.concat "" mds) w'
    | Thrown e w' => Thrown e w'
    | Exited c w' => Exited c w'
    end.
Proof.
  revert acc w; induction ps as [|p ps IH]; intros acc w.
  - simpl. unfold ret. now rewrite append_empty_r.
  - cbn [mergeIndexes mapM]. unfold bind. fold (docsOf p).
    destruct (docsOf p w) as [md w1|e w1|c w1]; try reflexivity.
    rewrite IH.
    destruct (mapM docsOf ps w1) as [mds w2|e w2|c w2]; try reflexivity.
    unfold ret. now rewrite concat_empty_cons, append_assoc.
Qed.

Lemma lines_combinedIndex text :
  lines (combinedIndex text)
  = "# .NET API Reference" :: map withoutHeader (lines text).
Proof.
  unfold combinedIndex, removeLevel1Headers.
  destruct (lines_removeH1 text) as (E & _).
  cbn. now rewrite E.
Qed.

(** C6. The loop appends the markdown of the projects in the order of
    the list.  In the combined index the first line is the new title,
    every line of the merged text that opens with [# ] is emptied and
    every other line is kept, so the title is the only level-1 header.
    That text is what the script writes to [index.md].  The level-1
    headers of a project are among the lines of the merged text when the
    markdown of every project ends with a line break. *)
Theorem combined_index :
  (forall ps w,
     mergeIndexes platform arch dirname execSync "" ps w
     = match mapM docsOf ps w with
       | Returned mds w' => Returned (String.concat "" mds) w'
       | Thrown e w' => Thrown e w'
       | Exited c w' => Exited c w'
       end) /\
  (forall merged,
     combinedIndex merged = "# .NET API Reference" ++ nl ++ removeLevel1Headers merged /\
     lines (combinedIndex merged)
       = "# .NET API Reference" :: map withoutHeader (lines merged) /\
     filter isLevel1Header (lines (combinedIndex merged)) = ["# .NET API Reference"]) /\
  (forall ps w w',
     buildIndex platform arch dirname execSync JSON_stringify ps w = Returned tt w' ->
     exists w0 mds w1,
       mapM docsOf ps w0 = Returned mds w1 /\
       readFileSync (join (outDir dirname) ["index.md"]) (fs w')
         = Ok (combinedIndex (String.concat "" mds))) /\
  (forall mds,
     Forall (fun md => md = EmptyString \/ endsWithLineBreak md) mds ->
     forall md line,
       In md mds -> In line (lines md) -> isLevel1Header line = true ->
       In line (lines (String.concat "" mds))).
Proof.
  split; [|split; [|split]].
  4: { intros mds Hall md line Hmd Hline Hh.
       apply (lines_of_concat mds Hall md line Hmd Hline).
       intros ->. discriminate. }
  - intros ps w. apply mergeIndexes_mapM.
  - intros merged. split; [reflexivity|]. split; [apply lines_combinedIndex|].
    rewrite lines_combinedIndex. cbn [filter].
    now rewrite filter_headers_removed.
  - intros ps w w' H. unfold buildIndex in H.
    apply bind_returned in H as (present & w1 & _ & H).
    apply bind_returned in H as (? & w2 & _ & H).
    apply bind_returned in H as (? & w3 & _ & H).
    apply bind_returned in H as (indexMarkdown & w4 & Hm & H).
    apply bind_returned in H as (nav & w5 & _ & H).
    apply bind_returned in H as (? & w6 & _ & H).
    apply writing_returned in H as (Hw & _).
    rewrite mergeIndexes_mapM in Hm.
    destruct (mapM docsOf ps w3) as [mds w4'|e w4'|c w4'] eqn:E; try discriminate.
    inversion Hm; subst; clear Hm.
    exists w3, mds, w4. split; [exact E|].
    exact (readFileSync_writeFileSync _ _ _ _ Hw).
Qed.

End Script.

(** Without a line break at the end of a project's markdown, the title
    of the next project continues its last line and stays. *)
Example unterminated_markdown_keeps_next_title :
  combinedIndex (("# A" ++ nl ++ "text") ++ ("# B" ++ nl))
  = "# .NET API Reference" ++ nl ++ nl ++ "text# B" ++ nl.
Proof. reflexivity. Qed.

(** A run in which both tools succeed: the combined index on disk. *)
Lemma combined_index_witness :
  let run :=
    buildIndex "linux" "x64" scriptsDir workingTools noJson projectList emptyWorld in
  run = Returned tt (finalWorld run) /\
  exists w0 mds w1,
    mapM (fun p => buildProjectMarkdownDocs "linux" "x64" scriptsDir workingTools
                     (name p) (references p)) projectList w0
      = Returned mds w1 /\
    readFileSync (join (outDir scriptsDir) ["index.md"]) (fs (finalWorld run))
      = Ok (combinedIndex (String.concat "" mds)).
Proof.
  split; [vm_compute; reflexivity|].
  apply (proj1 (proj2 (proj2
           (combined_index "linux" "x64" scriptsDir workingTools noJson)))
           projectList emptyWorld).
  vm_compute; reflexivity.
Defined.

(** C1, on a failing build.  When [dotnet build] exits with status 1 the
    script writes the status to the error stream, and the process still
    ends with exit code 0. *)
Theorem failing_build_exits_zero :
  let run := main "linux" "x64" scriptsDir failingBuild noJson emptyWorld in
  stderr (finalWorld run) = [Text "Command executed with status: 1"] /\
  exitCode run = 0%Z.
Proof. split; reflexivity. Qed.

End DotnetDocsFacts.

Module SortFacts.
Import Nav.

Lemma ascii_compare_trans a b c :
  Ascii.compare a b = Lt -> Ascii.compare b c = Lt -> Ascii.compare a c = Lt.
Proof.
  unfold Ascii.compare. rewrite !N.compare_lt_iff. apply N.lt_trans.
Qed.

Lemma compare_not_gt_trans a :
  forall b c, String.compare a b <> Gt -> String.compare b c <> Gt ->
              String.compare a c <> Gt.
Proof.
  induction a as [|x a IH]; intros [|y b] [|z c]; simpl; try congruence.
  destruct (Ascii.compare x y) eqn:Exy; try congruence;
    destruct (Ascii.compare y z) eqn:Eyz; try congruence.
  - apply Ascii.compare_eq_iff in Exy, Eyz. subst.
    assert (E : Ascii.compare z z = Eq).
    { unfold Ascii.compare. apply N.compare_refl. }
    rewrite E. apply IH.
  - apply Ascii.compare_eq_iff in Exy. subst. rewrite Eyz. congruence.
  - apply Ascii.compare_eq_iff in Eyz. subst. rewrite Exy. congruence.
  - rewrite (ascii_compare_trans _ _ _ Exy Eyz). congruence.
Qed.

Lemma le_trans a b c : le a b -> le b c -> le a c.
Proof.
  unfold le, String.leb. intros Hab Hbc.
  pose proof (compare_not_gt_trans a b c) as H.
  destruct (String.compare a b), (String.compare b c), (String.compare a c);
    try reflexivity; try discriminate; exfalso; apply H; congruence.
Qed.

Lemma lt_not_ge a b : (a <? b) = true -> ~ le b a.
Proof.
  unfold le, String.ltb, String.leb. rewrite (String.compare_antisym b a).
  destruct (String.compare a b); simpl; congruence.
Qed.

Lemma lt_irrefl a : (a <? a) = false.
Proof.
  unfold String.ltb. pose proof (String.compare_antisym a a) as H.
  destruct (String.compare a a); try reflexivity; discriminate.
Qed.

Lemma insertSorted_perm x l : Permutation (insertSorted x l) (x :: l).
Proof.
  induction l as [|y l IH]; simpl; [reflexivity|].
  destruct (x <=? y); [reflexivity|].
  rewrite IH. apply perm_swap.
Qed.

Lemma sort_perm l : Permutation (sort l) l.
Proof.
  induction l as [|x l IH]; simpl; [reflexivity|].
  rewrite insertSorted_perm. now constructor.
Qed.

Lemma insertSorted_sorted x l : Sorted le l -> Sorted le (insertSorted x l).
Proof.
  induction 1 as [|y l Hs IH Hhd]; simpl; [repeat constructor|].
  destruct (x <=? y) eqn:E.
  - repeat constructor; assumption.
  - constructor; [exact IH|].
    assert (Hyx : le y x).
    { destruct (String.leb_total x y) as [H|H]; [congruence | exact H]. }
    destruct l as [|z l]; simpl; [now constructor|].
    destruct (x <=? z); constructor; [exact Hyx | now inversion Hhd].
Qed.

Lemma sort_sorted l : StronglySorted le (sort l).
Proof.
  apply Sorted_StronglySorted; [exact le_trans|].
  induction l as [|x l IH]; simpl; [constructor | now apply insertSorted_sorted].
Qed.

Lemma StronglySorted_nth l : StronglySorted le l ->
  forall i j a b, i < j -> nth_error l i = Some a -> nth_error l j = Some b -> le a b.
Proof.
  induction 1 as [|x l Hs IH Hall]; intros i j a b Hij Ha Hb.
  - destruct i; discriminate.
  - destruct j as [|j]; [lia|]. simpl in Hb.
    destruct i as [|i]; simpl in Ha.
    + inversion Ha; subst. rewrite Forall_forall in Hall.
      apply Hall. eapply nth_error_In; eauto.
    + apply (IH i j); auto; lia.
Qed.

(** In a sorted list a strictly smaller name stands before a larger. *)
Lemma sorted_positions l i j a b :
  StronglySorted le l ->
  nth_error l i = Some a -> nth_error l j = Some b -> (a <? b) = true -> i < j.
Proof.
  intros Hs Ha Hb Hlt.
  destruct (Nat.lt_trichotomy i j) as [H|[H|H]]; [exact H| |].
  - subst. rewrite Ha in Hb. inversion Hb; subst.
    rewrite lt_irrefl in Hlt. discriminate.
  - exfalso. apply (lt_not_ge _ _ Hlt).
    exact (StronglySorted_nth _ Hs _ _ _ _ H Hb Ha).
Qed.

(** The blocks of a concatenation keep the order of the list. *)
Lemma concat_blocks {A} (ls : list (list A)) :
  forall i j x y, i < j -> nth_error ls i = Some x -> nth_error ls j = Some y ->
  exists a b c, concat ls = (a ++ x ++ b ++ y ++ c)%list.
Proof.
  induction ls as [|l ls IH]; intros i j x y Hij Hx Hy.
  - destruct i; discriminate.
  - destruct j as [|j]; [lia|]. simpl in Hy.
    destruct i as [|i]; simpl in Hx.
    + inversion Hx; subst.
      destruct (nth_error_split _ _ Hy) as (l1 & l2 & -> & _).
      exists [], (concat l1), (concat l2).
      simpl. now rewrite concat_app.
    + destruct (IH i j x y) as (a & b & c & E); auto; [lia|].
      exists (l ++ a)%list, b, c. simpl. rewrite E. now rewrite <- app_assoc.
Qed.

End SortFacts.

Module NavFacts.
Import Str StrFacts Js Fs Headers Nav Scenarios SortFacts.

(** Induction on a file-system tree, with the hypothesis for every entry
    of a directory. *)
Lemma Entry_nested_ind (P : Entry -> Prop) :
  (forall c, P (File c)) ->
  (forall es, Forall (fun ne => P (snd ne)) es -> P (Dir es)) ->
  forall e, P e.
Proof.
  intros HF HD. fix IH 1. intros [c|es]; [apply HF|].
  apply HD. induction es as [|[n x] es IHes]; constructor; [apply IH | exact IHes].
Qed.

Lemma bindR_ok {A B} (r : Result A) (k : A -> Result B) b :
  bindR r k = Ok b -> exists a, r = Ok a /\ k a = Ok b.
Proof. destruct r as [a|e]; simpl; [eauto | discriminate]. Qed.

Lemma mapR_ok {A B} (f : A -> Result B) xs ys :
  mapR f xs = Ok ys -> Forall2 (fun x y => f x = Ok y) xs ys.
Proof.
  revert ys; induction xs as [|x xs IH]; intros ys H; simpl in H.
  - inversion H. constructor.
  - apply bindR_ok in H as (y & Hy & H).
    apply bindR_ok in H as (ys' & Hys & H). inversion H; subst.
    constructor; auto.
Qed.

Lemma findSubTree_some recurse file es r :
  findSubTree recurse file es = Some r ->
  exists n x, In (n, x) es /\ r = recurse x.
Proof.
  induction es as [|[n x] es IH]; simpl; [discriminate|].
  destruct (n =? file)%string.
  - destruct x; [discriminate|]. intros H; inversion H. eauto.
  - intros H. destruct (IH H) as (n' & x' & Hin & ->). eauto.
Qed.

Lemma generateNavigationTree_Dir rootDir es subDir :
  generateNavigationTree rootDir (Dir es) subDir
  = bindR (mapR (fileItems (join rootDir (orEmpty subDir)) es subDir
                   (fun file =>
                      findSubTree
                        (fun x sd => generateNavigationTree rootDir x (Some sd)) file es))
                (markdownBaseNames es))
          (fun perFile => Ok (concat perFile)).
Proof. reflexivity. Qed.

(** What [fileItems] returns: one item per header it kept, each with the
    sub-items the recursion gave. *)
Lemma fileItems_ok currentDir es subDir subTree file its :
  fileItems currentDir es subDir subTree file = Ok its ->
  exists headers kept subItems,
    getMarkdownFileHeaders currentDir es (file ++ ".md")
      (match subDir with Some _ => "#" | None => "##" end) = Ok headers /\
    kept = (if testOverload (hd_error headers)
            then match headers with h :: _ => [removeOverloadSuffix h] | [] => [] end
            else headers) /\
    its = map (fun h => navItemOf subDir file h subItems) kept /\
    (forall sub, subItems = Some sub -> kept <> [] ->
       exists recurse, subTree file = Some recurse /\
                       recurse (join (orEmpty subDir) [file]) = Ok sub).
Proof.
  unfold fileItems. intros H.
  apply bindR_ok in H as (headers & Hh & H).
  set (kept := if testOverload (hd_error headers) then _ else _) in *.
  destruct (subTree file) as [recurse|] eqn:Es.
  - destruct (recurse (join (orEmpty subDir) [file])) as [sub|e] eqn:Er.
    + exists headers, kept, (Some sub). repeat split; auto.
      * clearbody kept. revert its H. induction kept as [|h k IH]; intros its H.
        -- inversion H. reflexivity.
        -- simpl in H. apply bindR_ok in H as (ys & Hys & H). inversion H; subst.
           simpl. f_equal. apply IH. exact Hys.
      * intros sub' Hs _. inversion Hs; subst. eauto.
    + exists headers, kept, None. repeat split; auto; [|discriminate].
      destruct kept; [inversion H; reflexivity | discriminate].
  - exists headers, kept, None. repeat split; auto; [|discriminate].
    clearbody kept. revert its H. induction kept as [|h k IH]; intros its H.
    + inversion H. reflexivity.
    + simpl in H. apply bindR_ok in H as (ys & Hys & H). inversion H; subst.
      simpl. f_equal. apply IH. exact Hys.
Qed.

Lemma Forall2_in_r {A B} (R : A -> B -> Prop) xs ys y :
  Forall2 R xs ys -> In y ys -> exists x, In x xs /\ R x y.
Proof.
  induction 1 as [|x y' xs ys HR _ IH]; simpl; [tauto|].
  intros [<-|Hin]; [eauto|]. destruct (IH Hin) as (x' & ? & ?). eauto.
Qed.

(** Every item of the list comes from a header of one of the files. *)
Lemma item_of_tree rootDir es subDir l it :
  generateNavigationTree rootDir (Dir es) subDir = Ok l ->
  In it l ->
  exists file header subItems,
    it = navItemOf subDir file header subItems /\
    forall sub, subItems = Some sub ->
      exists n x, In (n, x) es /\
        generateNavigationTree rootDir x (Some (join (orEmpty subDir) [file])) = Ok sub.
Proof.
  rewrite generateNavigationTree_Dir. intros H Hin.
  apply bindR_ok in H as (perFile & Hm & H). inversion H; subst; clear H.
  apply in_concat in Hin as (its & Hits & Hin).
  apply mapR_ok in Hm.
  destruct (Forall2_in_r _ _ _ _ Hm Hits) as (file & _ & Hf).
  apply fileItems_ok in Hf as (headers & kept & subItems & _ & _ & -> & Hsub).
  apply in_map_iff in Hin as (h & <- & Hh).
  exists file, h, subItems. split; [reflexivity|].
  intros sub Hs.
  destruct (Hsub sub Hs) as (recurse & Hr & Hok); [now destruct kept|].
  apply findSubTree_some in Hr as (n & x & Hx & ->). eauto.
Qed.

(** C9. In the tree that [generateNavigationTree] returns, every item
    at every depth has [collapsed] set to [true] exactly when it has
    [items], and no [collapsed] otherwise; [collapsed: false] does not
    occur. *)
Theorem collapsed_exactly_with_items rootDir dir subDir l :
  generateNavigationTree rootDir dir subDir = Ok l ->
  forall it, occurs it l ->
    collapsedWithItems it /\ collapsed it <> Some false.
Proof.
  intros H it Hocc.
  assert (Hinv : collapsedWithItems it).
  { revert rootDir subDir l H it Hocc.
    induction dir as [c|es IH] using Entry_nested_ind;
      intros rootDir subDir l H it Hocc; [discriminate|].
    destruct Hocc as [l Hin | l parent sub Hin Hitems Hocc].
    - destruct (item_of_tree _ _ _ _ _ H Hin) as (file & h & si & -> & _).
      unfold collapsedWithItems. simpl. now destruct si.
    - destruct (item_of_tree _ _ _ _ _ H Hin) as (file & h & si & -> & Hsub).
      simpl in Hitems. destruct (Hsub sub Hitems) as (n & x & Hx & Hgen).
      rewrite Forall_forall in IH. exact (IH _ Hx _ _ _ Hgen _ Hocc). }
  split; [exact Hinv|].
  unfold collapsedWithItems in Hinv. rewrite Hinv.
  destruct (items it); discriminate.
Qed.

(** C9 on the directory with three files: the item of [b], which has
    sub-items, and the item below it, which has none. *)
Lemma collapsed_exactly_with_items_witness :
  let below := navItemOf (Some ["b"]) "T" "T class" None in
  let top := navItemOf None "b" "B namespace" (Some [below]) in
  (collapsedWithItems top /\ collapsed top <> Some false) /\
  (collapsedWithItems below /\ collapsed below <> Some false).
Proof.
  assert (H : generateNavigationTree ["out"] threeFiles None = Ok threeFilesNav)
    by reflexivity.
  split.
  - apply (collapsed_exactly_with_items _ _ _ _ H).
    apply occurs_here. simpl. tauto.
  - apply (collapsed_exactly_with_items _ _ _ _ H).
    apply (occurs_below _ _
             (navItemOf None "b" "B namespace"
                (Some [navItemOf (Some ["b"]) "T" "T class" None]))
             [navItemOf (Some ["b"]) "T" "T class" None]);
      [simpl; tauto | reflexivity | apply occurs_here; simpl; tauto].
Defined.

(** C4, as the code has it.  Only the first header of a file is tested
    for the overload suffix.  When it matches, the file gives a single
    item, made from that header without the suffix, and the other
    headers give none; when it does not match, every header gives its
    own item, suffixed or not. *)
Theorem overloads_collapse_on_first_header
    currentDir es subDir subTree file headers its :
  getMarkdownFileHeaders currentDir es (file ++ ".md")
    (match subDir with Some _ => "#" | None => "##" end) = Ok headers ->
  fileItems currentDir es subDir subTree file = Ok its ->
  (forall first stem,
     hd_error headers = Some first -> beforeOverloadSuffix first = Some stem ->
     exists subItems,
       its = [navItemOf subDir file stem subItems] /\
       map text its = [shortenHeader stem]) /\
  (testOverload (hd_error headers) = false ->
     map text its = map shortenHeader headers).
Proof.
  intros Hh Hf.
  apply fileItems_ok in Hf as (headers' & kept & subItems & Hh' & Hk & -> & _).
  rewrite Hh in Hh'. inversion Hh'; subst headers'; clear Hh'.
  split.
  - intros first stem Hfirst Hstem.
    destruct headers as [|h rest]; [discriminate|]. inversion Hfirst; subst h.
    simpl in Hk. unfold removeOverloadSuffix in Hk. rewrite Hstem in Hk. subst kept.
    exists subItems. split; reflexivity.
  - intros Hno. rewrite Hno in Hk. subst kept.
    rewrite map_map. reflexivity.
Qed.

(** C4 on a file that opens with [Foo (3 overloads)]: one item, [Foo]. *)
Lemma overloads_collapse_on_first_header_witness :
  exists subItems,
    [navItemOf None "Foo" "Foo" None] = [navItemOf None "Foo" "Foo" subItems] /\
    map text [navItemOf None "Foo" "Foo" None] = ["Foo"].
Proof.
  exact (proj1
           (overloads_collapse_on_first_header ["out"]
              [("Foo.md", File ("## Foo (3 overloads)" ++ nl ++ "## Foo (2)" ++ nl))]
              None (fun _ => None) "Foo"
              ["Foo (3 overloads)"; "Foo (2)"] [navItemOf None "Foo" "Foo" None]
              eq_refl eq_refl)
           "Foo (3 overloads)" "Foo" eq_refl eq_refl).
Defined.

(** C4, refuted: the suffixed header comes second, and the file gives
    two items, the second with its suffix. *)
Lemma overload_on_second_header_not_collapsed :
  generateNavigationTree ["out"] overloadSecond None
  = Ok [ {| text := "Bar"; link := "/reference/dotnet/Foo";
            items := None; collapsed := None |};
         {| text := "Foo (3 overloads)"; link := "/reference/dotnet/Foo";
            items := None; collapsed := None |} ].
Proof. reflexivity. Qed.

(** C10. The files of a directory are handled in the sorted order of
    their base names (the names without [.md]), and the items of the
    directory are the items of the files, file after file in that order:
    the items of a file with a smaller base name all stand before the
    items of a file with a larger one. *)
Theorem files_in_sorted_order rootDir es subDir items :
  generateNavigationTree rootDir (Dir es) subDir = Ok items ->
  let names := markdownBaseNames es in
  let itemsOf :=
    fileItems (join rootDir (orEmpty subDir)) es subDir
      (fun file =>
         findSubTree (fun x sd => generateNavigationTree rootDir x (Some sd)) file es) in
  StronglySorted le names /\
  Permutation names (map dropLast3 (filter (endsWith ".md") (map fst es))) /\
  exists perFile,
    Forall2 (fun file its => itemsOf file = Ok its) names perFile /\
    items = concat perFile /\
    forall i j f1 f2 its1 its2,
      nth_error names i = Some f1 -> nth_error names j = Some f2 ->
      nth_error perFile i = Some its1 -> nth_error perFile j = Some its2 ->
      (f1 <? f2) = true ->
      exists a b c, items = (a ++ its1 ++ b ++ its2 ++ c)%list.
Proof.
  rewrite generateNavigationTree_Dir. intros H names itemsOf.
  apply bindR_ok in H as (perFile & Hm & H). inversion H; subst; clear H.
  apply mapR_ok in Hm.
  split; [apply sort_sorted|]. split; [apply sort_perm|].
  exists perFile. split; [exact Hm|]. split; [reflexivity|].
  intros i j f1 f2 its1 its2 H1 H2 Hi Hj Hlt.
  apply (concat_blocks perFile i j); auto.
  exact (sorted_positions _ _ _ _ _ (sort_sorted _) H1 H2 Hlt).
Qed.

(** C10 on the directory with three files, listed as [b], [a], [a-b]. *)
Lemma files_in_sorted_order_witness :
  let names := markdownBaseNames threeEntries in
  let itemsOf :=
    fileItems (join ["out"] (orEmpty None)) threeEntries None
      (fun file =>
         findSubTree (fun x sd => generateNavigationTree ["out"] x (Some sd))
           file threeEntries) in
  StronglySorted le names /\
  Permutation names (map dropLast3 (filter (endsWith ".md") (map fst threeEntries))) /\
  exists perFile,
    Forall2 (fun file its => itemsOf file = Ok its) names perFile /\
    threeFilesNav = concat perFile /\
    forall i j f1 f2 its1 its2,
      nth_error names i = Some f1 -> nth_error names j = Some f2 ->
      nth_error perFile i = Some its1 -> nth_error perFile j = Some its2 ->
      (f1 <? f2) = true ->
      exists a b c, threeFilesNav = (a ++ its1 ++ b ++ its2 ++ c)%list.
Proof.
  exact (files_in_sorted_order ["out"] threeEntries None threeFilesNav eq_refl).
Defined.

(** The sorted base names of that directory: [a-b] follows [a] although
    [a-b.md] precedes [a.md] as a full name. *)
Example threeFiles_base_names :
  markdownBaseNames threeEntries = ["a"; "a-b"; "b"] /\
  ("a-b.md" <? "a.md") = true.
Proof. split; reflexivity. Qed.

End NavFacts.

Module JsDocsFacts.
Import Str Js Fs FsFacts Process ProcessFacts JsDocs Scenarios.
Local Open Scope script_scope.

Lemma lookup_app p q fs :
  lookup (p ++ q)%list fs
  = match lookup p fs with Some e => lookup q e | None => None end.
Proof.
  revert fs; induction p as [|n p IH]; intros fs; simpl; [reflexivity|].
  destruct fs as [|es]; [reflexivity|].
  destruct (lookupEntry n es); [apply IH | reflexivity].
Qed.

Lemma lookupEntry_removeEntry n es : lookupEntry n (removeEntry n es) = None.
Proof.
  induction es as [|[m x] es IH]; simpl; [reflexivity|].
  destruct (String.eqb_spec m n) as [->|Hn]; simpl; [exact IH|].
  apply String.eqb_neq in Hn. now rewrite Hn.
Qed.

Lemma lookup_removeAt p fs : p <> [] -> lookup p (removeAt p fs) = None.
Proof.
  revert fs; induction p as [|n p IH]; intros fs Hp; [congruence|].
  destruct fs as [|es]; [reflexivity|]. cbn [removeAt].
  destruct p as [|n' p'].
  - cbn [lookup]. now rewrite lookupEntry_removeEntry.
  - destruct (lookupEntry n es) as [x|] eqn:E.
    + cbn [lookup]. rewrite lookupEntry_setEntry. apply IH. discriminate.
    + cbn [lookup]. now rewrite E.
Qed.

Lemma lookup_mkdirAt full p fs fs' :
  mkdirAt full p fs = Ok fs' -> lookup p fs = None -> lookup p fs' = Some (Dir []).
Proof.
  revert fs fs'; induction p as [|n p IH]; intros fs fs' H Hn; [discriminate|].
  destruct fs as [|es]; [discriminate|]. cbn [mkdirAt] in H.
  apply NavFacts.bindR_ok in H as (x' & Hx & H). inversion H; subst; clear H.
  cbn [lookup] in *. rewrite lookupEntry_setEntry.
  destruct (lookupEntry n es) as [x|]; [exact (IH _ _ Hx Hn)|].
  destruct p as [|n' p']; [inversion Hx; reflexivity|].
  apply (IH _ _ Hx). reflexivity.
Qed.

Lemma rmSync_ok p fs : p <> [] -> rmSync p fs = Ok (removeAt p fs).
Proof. destruct p; [congruence | reflexivity]. Qed.

Section Script.

Variable Value : Type.
Variable JSON_stringify : option Value -> string.
Variable JSON_parse : string -> Result (ProjectReflection Value).
Variable dirname : Path.
Variables App Converted : Type.
Variable bootstrap : Path -> Path -> Entry -> Result App.
Variable convert : App -> Entry -> Result (option Converted).
Variable generateJson : App -> Converted -> Path -> Entry -> Result Entry.

Lemma outDir_not_root : outDir dirname <> [].
Proof. unfold outDir, join. destruct (parent dirname); discriminate. Qed.

(** After the first two statements the output directory is empty. *)
Lemma resetOutDir_empty w w0 :
  resetOutDir dirname w = Returned tt w0 ->
  lookup (outDir dirname) (fs w0) = Some (Dir []) /\
  stdout w0 = stdout w /\ stderr w0 = stderr w.
Proof.
  unfold resetOutDir. intros H.
  apply bind_returned in H as (present & w1 & Hp & H).
  apply bind_returned in H as (u & w2 & Hrm & H).
  apply writing_returned in H as (Hmk & Ho & He).
  unfold reading in Hp. inversion Hp; subst; clear Hp.
  assert (Hnone : lookup (outDir dirname) (fs w2) = None
                  /\ stdout w2 = stdout w1 /\ stderr w2 = stderr w1).
  { unfold existsSync in Hrm.
    destruct (lookup (outDir dirname) (fs w1)) eqn:E.
    - apply writing_returned in Hrm as (Hrm & ? & ?).
      rewrite (rmSync_ok _ _ outDir_not_root) in Hrm.
      assert (Hfs : fs w2 = removeAt (outDir dirname) (fs w1)) by congruence.
      rewrite Hfs.
      split; [apply lookup_removeAt, outDir_not_root | auto].
    - inversion Hrm; subst. auto. }
  destruct Hnone as (Hnone & ? & ?).
  split; [exact (lookup_mkdirAt _ _ _ _ Hmk Hnone)|]. split; congruence.
Qed.

(** C8. Once the output directory has been reset, a missing
    declaration file or a conversion without result ends the script in
    the handler: the message goes to the error stream (with the path of
    the missing file in the first case), the process exits with status 1,
    and the output directory holds no [index.md]. *)
Theorem js_pipeline_aborts w w0 msg :
  resetOutDir dirname w = Returned tt w0 ->
  (existsSync (packageTypedefsFile dirname) (fs w0) = false /\
   msg = "File not found: " ++ pathString (packageTypedefsFile dirname))
  \/
  (existsSync (packageTypedefsFile dirname) (fs w0) = true /\
   (exists app,
      bootstrap (packageTypedefsFile dirname)
        (join (parent (packageTypedefsFile dirname)) ["tsconfig.json"]) (fs w0) = Ok app /\
      convert app (fs w0) = Ok None) /\
   msg = "Failed to convert TypeScript to documentation.") ->
  let run :=
    main Value JSON_stringify JSON_parse dirname App Converted
      bootstrap convert generateJson w in
  run = Exited 1 (mkWorld (fs w0) (stdout w0) (stderr w0 ++ [Text msg])%list) /\
  exitCode run <> 0%Z /\
  existsSync (join (outDir dirname) ["index.md"]) (fs (finalWorld run)) = false.
Proof.
  intros Hreset Hcause run.
  assert (E : run = Exited 1 (mkWorld (fs w0) (stdout w0) (stderr w0 ++ [Text msg])%list)).
  { subst run. unfold main, tryCatch, exportJsdocToJson, bind. rewrite Hreset.
    unfold reading at 1.
    destruct Hcause as [(Hex & ->) | (Hex & (app & Hb & Hc) & ->)]; rewrite Hex; simpl.
    - reflexivity.
    - unfold reading. rewrite Hb, Hc. reflexivity. }
  rewrite E. split; [reflexivity|]. split; [discriminate|].
  simpl. apply resetOutDir_empty in Hreset as (Hl & _).
  unfold existsSync, join. rewrite lookup_app, Hl. reflexivity.
Qed.

(** The renderer on a type that is there: the literal value first,
    then the name, then the arrow form of a single signature, and
    [unknown] for the rest. *)
Lemma typeToMarkdown_chain type value name declaration :
  let t := TypeObject Value type value name declaration in
  (type = Some "literal" ->
     typeToMarkdown Value JSON_stringify t = Ok (JSON_stringify value)) /\
  (type <> Some "literal" -> truthyStr name = true ->
     typeToMarkdown Value JSON_stringify t = Ok (shown name)) /\
  (type <> Some "literal" -> truthyStr name = false ->
     forall ps returnType comment,
       declaration
         = Some (mkDeclaration Value
                   (Some [mkSignature Value (Some ps) returnType comment])) ->
       typeToMarkdown Value JSON_stringify t
       = bindR (mapR (fun p =>
                        bindR (typeToMarkdown Value JSON_stringify (parameterType Value p))
                              (fun r => Ok (parameterName Value p ++ ": " ++ r))) ps)
           (fun rendered =>
              bindR (typeToMarkdown Value JSON_stringify returnType) (fun ret =>
              Ok ("(" ++ String.concat ", " rendered ++ ") => " ++ ret)))) /\
  (type <> Some "literal" -> truthyStr name = false ->
     match declaration with
     | Some (mkDeclaration _ (Some [_])) => False
     | _ => True
     end ->
     typeToMarkdown Value JSON_stringify t = Ok "unknown").
Proof.
  intros t. subst t.
  assert (Hlit : type <> Some "literal" ->
                 isLiteral Value (TypeObject Value type value name declaration) = false).
  { unfold isLiteral, typeOf. destruct type as [ty|]; [|reflexivity].
    intros H. apply String.eqb_neq. congruence. }
  repeat split.
  - intros ->. reflexivity.
  - intros Hn Ht. cbn [typeToMarkdown isLiteral typeOf nameOf valueOf].
    now rewrite (Hlit Hn), Ht.
  - intros Hn Ht ps returnType comment ->.
    cbn [typeToMarkdown isLiteral typeOf nameOf valueOf].
    rewrite (Hlit Hn), Ht.
    f_equal. clear Hlit. induction ps as [|[pn pt pc] ps IH]; [reflexivity|].
    cbn [mapR parameterType parameterName]. rewrite IH.
    destruct (typeToMarkdown Value JSON_stringify pt); reflexivity.
  - intros Hn Ht Hd. cbn [typeToMarkdown isLiteral typeOf nameOf valueOf].
    rewrite (Hlit Hn), Ht.
    destruct declaration as [[[[|sg [|sg' sgs]]|]]|]; try reflexivity;
      [contradiction | now destruct sg].
Qed.

(** C7, on an absent type.  The renderer does not answer [unknown]: the
    third test reads a property of [undefined] and throws. *)
Theorem typeToMarkdown_absent_throws :
  typeToMarkdown Value JSON_stringify (Absent Value) = Throw (TypeError "declaration").
Proof. reflexivity. Qed.

End Script.

(** C8 on two checkouts: one without the declaration file, and one with
    it (and an [index.md] of an earlier run) where TypeDoc converts to
    nothing. *)
Lemma js_pipeline_aborts_witness :
  (let w0 := finalWorld (resetOutDir scriptsDir emptyWorld) in
   let run :=
     main unit showUnit parseNothing scriptsDir unit unit
       bootstrapOk convertNothing generateNoJson emptyWorld in
   run = Exited 1
           (mkWorld (fs w0) (stdout w0)
              (stderr w0
               ++ [Text "File not found: /repo/src/node-api-dotnet/index.d.ts"])%list) /\
   exitCode run <> 0%Z /\
   existsSync (join (outDir scriptsDir) ["index.md"]) (fs (finalWorld run)) = false)
  /\
  (let w0 := finalWorld (resetOutDir scriptsDir withTypedefs) in
   let run :=
     main unit showUnit parseNothing scriptsDir unit unit
       bootstrapOk convertNothing generateNoJson withTypedefs in
   run = Exited 1
           (mkWorld (fs w0) (stdout w0)
              (stderr w0
               ++ [Text "Failed to convert TypeScript to documentation."])%list) /\
   exitCode run <> 0%Z /\
   existsSync (join (outDir scriptsDir) ["index.md"]) (fs (finalWorld run)) = false).
Proof.
  split.
  - apply (js_pipeline_aborts unit showUnit parseNothing scriptsDir unit unit
             bootstrapOk convertNothing generateNoJson emptyWorld);
      [reflexivity | left; split; reflexivity].
  - apply (js_pipeline_aborts unit showUnit parseNothing scriptsDir unit unit
             bootstrapOk convertNothing generateNoJson withTypedefs);
      [reflexivity | right; split; [reflexivity|split; [|reflexivity]]].
    exists tt. split; reflexivity.
Defined.

End JsDocsFacts.

(** * Further properties of the post-processor *)

Module MarkdownMore.
Import Str StrFacts Markdown MarkdownFacts.

Lemma splitPipes_join s : String.concat "|" (splitPipes s) = s.
Proof.
  induction s as [|c r IH]; [reflexivity|]. simpl.
  destruct (isPipe c) eqn:Ec.
  - apply Ascii.eqb_eq in Ec; subst c.
    rewrite <- IH at 2.
    destruct (splitPipes_cons r) as (h & t & ->). reflexivity.
  - destruct (splitPipes r) as [|l [|x ls]]; simpl in *; now rewrite <- IH.
Qed.

Lemma splitPipes_nopipe s : Forall (fun seg => reachesPipe seg = false) (splitPipes s).
Proof.
  induction s as [|c r IH]; simpl; [repeat constructor|].
  destruct (isPipe c) eqn:Ec; [constructor; [reflexivity | exact IH]|].
  destruct (splitPipes r) as [|l ls]; [repeat constructor; simpl; now rewrite Ec|].
  inversion IH; subst. constructor; [simpl; now rewrite Ec | assumption].
Qed.

Lemma splitPipes_app_String a b :
  reachesPipe a = false -> splitPipes (a ++ String "|" b) = a :: splitPipes b.
Proof.
  induction a as [|c a IH]; simpl; [reflexivity|].
  destruct (isPipe c); [discriminate|]. intros H. now rewrite (IH H).
Qed.

Lemma splitPipes_app_pipe a b :
  reachesPipe a = false -> splitPipes (a ++ "|" ++ b) = a :: splitPipes b.
Proof. exact (splitPipes_app_String a b). Qed.

Lemma reachesPipe_entityOf c : isPipe c = false -> reachesPipe (entityOf c) = false.
Proof.
  unfold entityOf. intros H.
  repeat match goal with |- context [if ?b then _ else _] => destruct b end;
    try reflexivity. simpl. now rewrite H.
Qed.

Lemma reachesPipe_escapeCell x : reachesPipe x = false -> reachesPipe (escapeCell x) = false.
Proof.
  induction x as [|c x IH]; simpl; [reflexivity|].
  destruct (isPipe c) eqn:Ec; [discriminate|]. intros H.
  now rewrite reachesPipe_app, (reachesPipe_entityOf _ Ec), (IH H).
Qed.

Lemma splitPipes_closeCells segs :
  segs <> [] -> Forall (fun seg => reachesPipe seg = false) segs ->
  splitPipes (closeCells segs) = (map escapeCell (removelast segs) ++ [last segs ""])%list.
Proof.
  induction segs as [|x segs IH]; [congruence|]. intros _ Hall.
  inversion Hall as [|? ? Hx Hrest]; subst.
  destruct segs as [|y segs].
  - simpl. now apply splitPipes_single.
  - change (closeCells (x :: y :: segs))
      with (escapeCell x ++ "|" ++ closeCells (y :: segs)).
    rewrite splitPipes_app_pipe by now apply reachesPipe_escapeCell.
    rewrite IH by (congruence || assumption). reflexivity.
Qed.

(** The segments of the escaped text, from those of the input. *)
Lemma splitPipes_escapeTableChars s :
  splitPipes (escapeTableChars s)
  = match splitPipes s with
    | [] => []
    | [only] => [only]
    | outside :: rest =>
        outside :: (map escapeCell (removelast rest) ++ [last rest ""])%list
    end.
Proof.
  rewrite escapeTableChars_fused, fused_outside. unfold escapeCells_spec.
  pose proof (splitPipes_nopipe s) as Hall.
  destruct (splitPipes s) as [|h [|x rest]] eqn:E.
  - destruct (splitPipes_cons s) as (? & ? & ?); congruence.
  - inversion Hall; subst. now apply splitPipes_single.
  - inversion Hall as [|? ? Hh Hrest]; subst.
    rewrite splitPipes_app_pipe by assumption.
    rewrite splitPipes_closeCells by (congruence || assumption). reflexivity.
Qed.

Lemma hasChar_app ch a b : hasChar ch (a ++ b) = hasChar ch a || hasChar ch b.
Proof. induction a as [|c a IH]; simpl; [reflexivity | now rewrite IH, orb_assoc]. Qed.

Lemma escapeCell_no_brace x :
  hasChar "{" (escapeCell x) = false /\ hasChar "}" (escapeCell x) = false.
Proof.
  induction x as [|c x (IHl & IHr)]; [split; reflexivity|].
  cbn [escapeCell]. rewrite !hasChar_app, IHl, IHr, !orb_false_r.
  unfold entityOf.
  destruct (Ascii.eqb_spec c ";"); [split; reflexivity|].
  destruct (Ascii.eqb_spec c "{"); [split; reflexivity|].
  destruct (Ascii.eqb_spec c "}"); [split; reflexivity|].
  simpl. rewrite !orb_false_r. split; now apply Ascii.eqb_neq.
Qed.

(** X1. A text with at most one pipe has no cell: post-processing only
    puts the front matter in front of it. *)
Theorem processMarkdown_without_cells s :
  List.length (splitPipes s) <= 2 -> processMarkdown s = frontMatter ++ s.
Proof.
  intros H. unfold processMarkdown. f_equal.
  rewrite escapeTableChars_fused, fused_outside. unfold escapeCells_spec.
  pose proof (splitPipes_join s) as J.
  destruct (splitPipes s) as [|a [|b [|c rest]]]; simpl in *; try lia; congruence.
Qed.

Lemma processMarkdown_without_cells_witness :
  processMarkdown "a;b | {c}" = frontMatter ++ "a;b | {c}".
Proof. apply processMarkdown_without_cells. simpl. lia. Defined.

(** X2. Escaping keeps the pipes of a text and what stands before the
    first and after the last of them; it turns every cell into its
    escaped form, and no cell of the result holds a raw brace. *)
Theorem escapeTableChars_cells s :
  cells (escapeTableChars s) = map escapeCell (cells s) /\
  List.length (splitPipes (escapeTableChars s)) = List.length (splitPipes s) /\
  hd "" (splitPipes (escapeTableChars s)) = hd "" (splitPipes s) /\
  last (splitPipes (escapeTableChars s)) "" = last (splitPipes s) "" /\
  forall cell, In cell (cells (escapeTableChars s)) ->
    hasChar "{" cell = false /\ hasChar "}" cell = false.
Proof.
  assert (Hc : cells (escapeTableChars s) = map escapeCell (cells s)).
  { unfold cells. rewrite splitPipes_escapeTableChars.
    destruct (splitPipes s) as [|h [|x rest]]; try reflexivity.
    cbn [tl]. now rewrite removelast_last. }
  split; [exact Hc|].
  assert (Hn : forall cell, In cell (cells (escapeTableChars s)) ->
                 hasChar "{" cell = false /\ hasChar "}" cell = false).
  { intros cell Hin. rewrite Hc in Hin. apply in_map_iff in Hin as (c0 & <- & _).
    apply escapeCell_no_brace. }
  rewrite splitPipes_escapeTableChars.
  destruct (splitPipes s) as [|h [|x rest]] eqn:E; [tauto | tauto |].
  split; [|split; [reflexivity|split; [|exact Hn]]].
  - cbn [List.length]. rewrite length_app, length_map. cbn [List.length].
    assert (L : List.length (x :: rest) = S (List.length (removelast (x :: rest)))).
    { rewrite (app_removelast_last "" (l := x :: rest)) at 1 by congruence.
      rewrite length_app. simpl. lia. }
    cbn [List.length] in L. lia.
  - change (last (h :: map escapeCell (removelast (x :: rest)) ++ [last (x :: rest) ""]) "")
      with (last ((h :: map escapeCell (removelast (x :: rest))) ++ [last (x :: rest) ""]) "").
    now rewrite last_last.
Qed.

End MarkdownMore.

(** * Further properties of the header functions *)

Module HeadersMore.
Import Str StrFacts Headers HeadersFacts Markdown DotnetDocs.

Lemma stripPrefix_some p s r : stripPrefix p s = Some r <-> s = p ++ r.
Proof.
  revert s; induction p as [|a p IH]; intros s; simpl.
  - split; [now intros [= ->] | now intros ->].
  - destruct s as [|b s]; [split; discriminate|].
    destruct (Ascii.eqb_spec a b) as [->|Hab].
    + rewrite IH. split; [now intros -> | now intros [= ->]].
    + split; [discriminate | intros [= ? ?]; congruence].
Qed.

Lemma stripPrefix_of_empty p : stripPrefix (p ++ " ") "" = None.
Proof. now destruct p. Qed.

Lemma matchHeaders_empty p : matchHeaders p "" = [].
Proof. unfold matchHeaders. cbn [lines flat_map]. now rewrite stripPrefix_of_empty. Qed.

(** Header extraction goes line by line. *)
Lemma matchHeaders_app p a c b :
  isLineTerminator c = true ->
  matchHeaders p (a ++ String c b) = (matchHeaders p a ++ matchHeaders p b)%list.
Proof.
  intros Hc. unfold matchHeaders.
  now rewrite (lines_app_terminator _ _ _ Hc), flat_map_app.
Qed.

Lemma matchHeaders_concat p mds :
  Forall (fun md => md = EmptyString \/ endsWithLineBreak md) mds ->
  matchHeaders p (String.concat "" mds) = flat_map (matchHeaders p) mds.
Proof.
  induction 1 as [|x xs Hx _ IH]; [apply matchHeaders_empty|].
  assert (E : String.concat "" (x :: xs) = x ++ String.concat "" xs).
  { destruct xs; simpl; [now rewrite append_empty_r | reflexivity]. }
  rewrite E. cbn [flat_map]. rewrite <- IH.
  destruct Hx as [->|(a & c & -> & Hc)]; [now rewrite matchHeaders_empty|].
  rewrite append_assoc. cbn [append].
  rewrite !(matchHeaders_app _ _ _ _ Hc), matchHeaders_empty.
  now rewrite app_nil_r.
Qed.

(** X3. The headers of the merged index are the headers of the projects'
    files, in the order of the projects, whenever each file is empty or
    ends with a line break: no header is lost, made or cut where two
    files meet.  This holds for the two prefixes that the navigation
    builder passes. *)
Theorem matchHeaders_of_merged mds :
  Forall (fun md => md = EmptyString \/ endsWithLineBreak md) mds ->
  matchHeaders "##" (String.concat "" mds) = flat_map (matchHeaders "##") mds /\
  matchHeaders "#" (String.concat "" mds) = flat_map (matchHeaders "#") mds.
Proof. intros H. split; now apply matchHeaders_concat. Qed.

Lemma matchHeaders_of_merged_witness :
  let mds := ["# A" ++ nl ++ "## N" ++ nl; ""; "## M" ++ nl] in
  matchHeaders "##" (String.concat "" mds) = flat_map (matchHeaders "##") mds /\
  matchHeaders "#" (String.concat "" mds) = flat_map (matchHeaders "#") mds.
Proof.
  apply matchHeaders_of_merged.
  constructor; [|constructor; [|constructor; [|constructor]]].
  - right. exists ("# A" ++ nl ++ "## N"), LF. split; reflexivity.
  - left. reflexivity.
  - right. exists "## M", LF. split; reflexivity.
Defined.

Lemma prefix_empty s : String.prefix "" s = true.
Proof. now destruct s. Qed.

Lemma startsWith_space s :
  startsWith " " s
  = match s with
    | String x _ => if ascii_dec " " x then true else false
    | EmptyString => false
    end.
Proof.
  destruct s as [|x r]; [reflexivity|]. unfold startsWith. cbn [String.prefix].
  now rewrite prefix_empty.
Qed.

Lemma removeH1_Copy_head r :
  startsWith " " (removeH1 Copy r) = startsWith " " r.
Proof.
  destruct r as [|x r]; [reflexivity|]. cbn [removeH1].
  destruct (isLineTerminator x); now rewrite !startsWith_space.
Qed.

Lemma startsWith_hash_space c r :
  startsWith "# " (String c r) = (if ascii_dec "#" c then startsWith " " r else false).
Proof. reflexivity. Qed.

Lemma removeH1_twice s :
  removeH1 LineStart (removeH1 LineStart s) = removeH1 LineStart s /\
  removeH1 Copy (removeH1 Copy s) = removeH1 Copy s /\
  removeH1 LineStart (removeH1 Drop s) = removeH1 Drop s.
Proof.
  induction s as [|c r (IHs & IHc & IHd)]; [repeat split|].
  cbn [removeH1]. destruct (isLineTerminator c) eqn:Ec.
  - cbn [removeH1]. rewrite Ec, IHs. repeat split.
  - split; [|split; [|exact IHd]].
    + destruct (startsWith "# " (String c r)) eqn:Eh; [exact IHd|].
      cbn [removeH1]. rewrite Ec.
      rewrite startsWith_hash_space, removeH1_Copy_head, <- startsWith_hash_space, Eh.
      now rewrite IHc.
    + cbn [removeH1]. now rewrite Ec, IHc.
Qed.

(** X4. Removing the level-1 headers a second time changes nothing. *)
Theorem removeLevel1Headers_idempotent md :
  removeLevel1Headers (removeLevel1Headers md) = removeLevel1Headers md.
Proof. apply removeH1_twice. Qed.

Lemma isLevel1Header_stripPrefix l :
  isLevel1Header l = match stripPrefix "# " l with Some _ => true | None => false end.
Proof.
  unfold isLevel1Header. destruct l as [|a r]; [reflexivity|].
  rewrite startsWith_hash_space, startsWith_space. cbn [stripPrefix].
  destruct (ascii_dec "#" a) as [<-|Ha].
  - rewrite Ascii.eqb_refl. destruct r as [|b r]; [reflexivity|].
    destruct (ascii_dec " " b) as [<-|Hb]; [now rewrite Ascii.eqb_refl|].
    apply Ascii.eqb_neq in Hb. now rewrite Hb.
  - apply Ascii.eqb_neq in Ha. now rewrite Ha.
Qed.

Lemma withoutHeader_level2 l :
  stripPrefix "## " (withoutHeader l) = stripPrefix "## " l.
Proof.
  unfold withoutHeader. destruct (isLevel1Header l) eqn:E; [|reflexivity].
  rewrite isLevel1Header_stripPrefix in E.
  destruct (stripPrefix "# " l) as [r|] eqn:Er; [|discriminate].
  apply stripPrefix_some in Er. subst l. reflexivity.
Qed.

Lemma withoutHeader_level1 l : stripPrefix "# " (withoutHeader l) = None.
Proof.
  pose proof (withoutHeader_not_header l) as H.
  rewrite isLevel1Header_stripPrefix in H.
  now destruct (stripPrefix "# " (withoutHeader l)).
Qed.

(** X5. The combined index keeps every level-2 header of the merged
    text, in order, and its only level-1 header is the new title. *)
Theorem combinedIndex_headers merged :
  matchHeaders "##" (combinedIndex merged) = matchHeaders "##" merged /\
  matchHeaders "#" (combinedIndex merged) = [".NET API Reference"].
Proof.
  unfold matchHeaders. rewrite DotnetDocsFacts.lines_combinedIndex.
  cbn [flat_map app]. change ("##" ++ " ") with "## ". change ("#" ++ " ") with "# ".
  change (stripPrefix "## " "# .NET API Reference") with (@None string).
  change (stripPrefix "# " "# .NET API Reference") with (Some ".NET API Reference").
  cbn [app]. split.
  - induction (lines merged) as [|l ls IH]; [reflexivity|].
    cbn [map flat_map]. now rewrite withoutHeader_level2, IH.
  - f_equal. induction (lines merged) as [|l ls IH]; [reflexivity|].
    cbn [map flat_map]. now rewrite withoutHeader_level1, IH.
Qed.

End HeadersMore.

(** * Further properties of the scripts *)

Module ProcessMore.
Import Js Fs Process ProcessFacts.

Lemma consoleLog_returned s w u w' :
  consoleLog s w = Returned u w' ->
  fs w' = fs w /\ stdout w' = (stdout w ++ [s])%list /\ stderr w' = stderr w.
Proof. unfold consoleLog. intros [= _ <-]. auto. Qed.

Lemma reading_returned {A} (f : Entry -> Result A) w a w' :
  reading f w = Returned a w' -> w' = w /\ f (fs w) = Ok a.
Proof.
  unfold reading. destruct (f (fs w)); [|discriminate]. intros [= <- <-]. auto.
Qed.

Lemma logs_ret {A} (a : A) : logs (ret a) [].
Proof. intros w. simpl. now rewrite app_nil_r. Qed.

(** A throw adds nothing, which is an initial part of any log. *)
Lemma logs_throw {A} e full : logs (@throw A e) full.
Proof. intros w. simpl. exists [], full. now rewrite app_nil_r. Qed.

Lemma logs_reading {A} (f : Entry -> Result A) : logs (reading f) [].
Proof.
  intros w. unfold reading. destruct (f (fs w)); simpl.
  - now rewrite app_nil_r.
  - exists [], []. now rewrite app_nil_r.
Qed.


Lemma logs_consoleLog s : logs (consoleLog s) [s].
Proof. intros w. reflexivity. Qed.

(** Sequencing, when the first script only returns values that satisfy
    [P]: the log of the second may depend on that. *)
Lemma logs_bind_post {A B} (P : A -> Prop) (m : M A) (k : A -> M B) l1 l2 full :
  logs m l1 ->
  (forall w a w', m w = Returned a w' -> P a) ->
  (forall a, P a -> logs (k a) l2) ->
  full = (l1 ++ l2)%list ->
  logs (bind m k) full.
Proof.
  intros Hm HP Hk -> w. unfold bind. specialize (Hm w). specialize (HP w).
  destruct (m w) as [a w1|e w1|c w1].
  - specialize (Hk a (HP a w1 eq_refl) w1).
    destruct (k a w1) as [b w2|e w2|c w2].
    + now rewrite Hk, Hm, app_assoc.
    + destruct Hk as (l & rest & Ho & ->). exists (l1 ++ l)%list, rest.
      now rewrite Ho, Hm, !app_assoc.
    + destruct Hk as (l & rest & Ho & ->). exists (l1 ++ l)%list, rest.
      now rewrite Ho, Hm, !app_assoc.
  - destruct Hm as (l & rest & Ho & ->). exists l, (rest ++ l2)%list.
    now rewrite Ho, !app_assoc.
  - destruct Hm as (l & rest & Ho & ->). exists l, (rest ++ l2)%list.
    now rewrite Ho, !app_assoc.
Qed.

Lemma logs_bind {A B} (m : M A) (k : A -> M B) l1 l2 full :
  logs m l1 -> (forall a, logs (k a) l2) -> full = (l1 ++ l2)%list ->
  logs (bind m k) full.
Proof.
  intros Hm Hk. apply (logs_bind_post (fun _ => True) m k l1 l2); auto.
Qed.


End ProcessMore.

Module DotnetDocsMore.
Import Str StrFacts Js Fs FsFacts Process ProcessFacts ProcessMore Headers Nav Markdown.
Import DotnetDocs DotnetDocsFacts Scenarios.
Local Open Scope script_scope.

Section Script.

Variables platform arch : string.
Variable dirname : Path.
Variable execSync : string -> Entry -> ExecResult.
Variable JSON_stringify : list NavItem -> string.

Lemma exec_returned cmd w u w' :
  exec execSync cmd w = Returned u w' ->
  execSync cmd (fs w) = Completed (fs w') /\
  stdout w' = (stdout w ++ [cmd])%list.
Proof.
  unfold exec. intros H. apply bind_returned in H as (u1 & w1 & Hlog & H).
  apply consoleLog_returned in Hlog as (Hf & Ho & He). rewrite Hf in H.
  destruct (execSync cmd (fs w)) as [fs1|e fs1].
  - inversion H; subst. simpl. auto.
  - destruct (status e) as [st|]; [destruct (st =? 0)%Z|]; discriminate.
Qed.

(** The command is logged before it runs, whatever comes of it. *)
Lemma logs_exec cmd : logs (exec execSync cmd) [cmd].
Proof.
  intros w. unfold exec, bind, consoleLog. simpl.
  destruct (execSync cmd (fs w)) as [fs1|e fs1]; [reflexivity|].
  destruct (status e) as [st|]; [destruct (st =? 0)%Z|];
    exists [cmd], []; split; reflexivity.
Qed.

Lemma buildProjectXmldocs_inv projectName w path w' :
  buildProjectXmldocs platform arch dirname execSync projectName
    (assemblyNamePrefix ++ projectName) w = Returned path w' ->
  path = assemblyPath platform arch dirname projectName /\
  existsSync path (fs w') = true /\
  existsSync (xmldocPath platform arch dirname projectName) (fs w') = true /\
  execSync (buildCommand dirname projectName) (fs w) = Completed (fs w') /\
  stdout w' = (stdout w ++ buildLog dirname projectName)%list.
Proof.
  unfold buildProjectXmldocs. intros H.
  apply bind_returned in H as (u1 & w1 & Hlog & H).
  apply bind_returned in H as (u2 & w2 & Hexec & H).
  apply bind_returned in H as (found & w3 & Hdll & H).
  apply consoleLog_returned in Hlog as (Hf1 & Ho1 & _).
  apply exec_returned in Hexec as (Hrun & Ho2).
  apply reading_returned in Hdll as (-> & Hdll). injection Hdll as Hdll.
  destruct found; [|discriminate]. cbn [negb] in H.
  apply bind_returned in H as (found2 & w4 & Hxml & H).
  apply reading_returned in Hxml as (-> & Hxml). injection Hxml as Hxml.
  destruct found2; [|discriminate]. cbn [negb] in H.
  inversion H; subst path w'. clear H.
  rewrite Hf1 in Hrun.
  repeat split; try assumption.
  rewrite Ho2, Ho1, <- app_assoc. reflexivity.
Qed.

(** X6. When [buildProjectXmldocs] returns, the build command ran to a
    zero status, the path returned is that of the assembly in the
    platform-qualified output directory, and both the assembly and its
    XML documentation file exist. *)
Theorem buildProjectXmldocs_returns projectName w path w' :
  buildProjectXmldocs platform arch dirname execSync projectName
    (assemblyNamePrefix ++ projectName) w = Returned path w' ->
  path = assemblyPath platform arch dirname projectName /\
  existsSync path (fs w') = true /\
  existsSync (xmldocPath platform arch dirname projectName) (fs w') = true /\
  execSync (buildCommand dirname projectName) (fs w) = Completed (fs w') /\
  stdout w' = (stdout w ++ buildLog dirname projectName)%list.
Proof. apply buildProjectXmldocs_inv. Qed.

(** The announcement and the build command are logged before anything
    can fail. *)
Lemma logs_buildProjectXmldocs p a :
  logs (buildProjectXmldocs platform arch dirname execSync p a) (buildLog dirname p).
Proof.
  unfold buildProjectXmldocs.
  eapply (logs_bind _ _ [_] [_]); [apply logs_consoleLog | intros _ | reflexivity].
  eapply (logs_bind _ _ [_] []); [apply logs_exec | intros _ | reflexivity].
  eapply (logs_bind _ _ [] []); [apply logs_reading | intros found | reflexivity].
  destruct (negb found); [apply logs_throw|].
  eapply (logs_bind _ _ [] []); [apply logs_reading | intros found2 | reflexivity].
  destruct (negb found2); [apply logs_throw | apply logs_ret].
Qed.

Lemma logs_buildProjectMarkdownDocs p refs :
  logs (buildProjectMarkdownDocs platform arch dirname execSync p refs)
       (projectLog platform arch dirname (mkProject p refs)).
Proof.
  unfold buildProjectMarkdownDocs.
  eapply (logs_bind_post (fun path => path = assemblyPath platform arch dirname p)
           _ _ (buildLog dirname p) [_; _]);
    [ apply logs_buildProjectXmldocs
    | intros w path w' H; now apply buildProjectXmldocs_inv in H
    | intros path ->
    | reflexivity ].
  eapply (logs_bind _ _ [_] [_]); [apply logs_consoleLog | intros _ | reflexivity].
  eapply (logs_bind _ _ [_] []); [apply logs_exec | intros _ | reflexivity].
  apply logs_reading.
Qed.

Lemma logs_mergeIndexes acc ps :
  logs (mergeIndexes platform arch dirname execSync acc ps)
       (flat_map (projectLog platform arch dirname) ps).
Proof.
  revert acc; induction ps as [|[p refs] ps IH]; intros acc.
  - apply logs_ret.
  - cbn [mergeIndexes flat_map name references].
    eapply (logs_bind _ _ (projectLog platform arch dirname (mkProject p refs))
             (flat_map (projectLog platform arch dirname) ps));
      [apply logs_buildProjectMarkdownDocs | intros md; apply IH | reflexivity].
Qed.

(** X7. When the loop over the projects returns, the log holds, for each
    project in the order of the list, the line that announces its build,
    its build command, the line that announces the conversion and the
    conversion command with one [--external] option per reference. *)
Theorem mergeIndexes_log ps acc w md w' :
  mergeIndexes platform arch dirname execSync acc ps w = Returned md w' ->
  stdout w' = (stdout w ++ flat_map (projectLog platform arch dirname) ps)%list.
Proof.
  intros H. pose proof (logs_mergeIndexes acc ps w) as L. now rewrite H in L.
Qed.




End Script.

Lemma mergeIndexes_log_witness :
  let run := mergeIndexes "linux" "x64" scriptsDir workingTools "" projectList emptyWorld in
  stdout (finalWorld run)
    = (stdout emptyWorld ++ flat_map (projectLog "linux" "x64" scriptsDir) projectList)%list.
Proof.
  apply (mergeIndexes_log "linux" "x64" scriptsDir workingTools projectList ""
           emptyWorld (nodeApiIndex ++ hostIndex)).
  vm_compute. reflexivity.
Defined.

Lemma buildProjectXmldocs_returns_witness :
  let run :=
    buildProjectXmldocs "linux" "x64" scriptsDir workingTools "NodeApi"
      (assemblyNamePrefix ++ "NodeApi") emptyWorld in
  let path := assemblyPath "linux" "x64" scriptsDir "NodeApi" in
  let w' := finalWorld run in
  path = assemblyPath "linux" "x64" scriptsDir "NodeApi" /\
  existsSync path (fs w') = true /\
  existsSync (xmldocPath "linux" "x64" scriptsDir "NodeApi") (fs w') = true /\
  workingTools (buildCommand scriptsDir "NodeApi") (fs emptyWorld) = Completed (fs w') /\
  stdout w' = (stdout emptyWorld ++ buildLog scriptsDir "NodeApi")%list.
Proof.
  apply (buildProjectXmldocs_returns "linux" "x64" scriptsDir workingTools
           "NodeApi" emptyWorld).
  vm_compute. reflexivity.
Defined.

End DotnetDocsMore.

Module FsMore.
Import Js Fs FsFacts.

(** The recursive listing goes level by level: the file next to a
    directory comes before what the directory holds. *)
Example descendants_level_by_level :
  descendants (Dir [("a", Dir [("x", Dir [("deep.md", File "")])]); ("b.md", File "")])
  = [["a"]; ["b.md"]; ["a"; "x"]; ["a"; "x"; "deep.md"]].
Proof. reflexivity. Qed.

Lemma fileContent_cons m q es :
  fileContent (m :: q) (Dir es)
  = match lookupEntry m es with Some x => fileContent q x | None => None end.
Proof. unfold fileContent. simpl. now destruct (lookupEntry m es). Qed.

Lemma fileContent_in_file m q c : fileContent (m :: q) (File c) = None.
Proof. reflexivity. Qed.

Lemma fileContent_root_dir es : fileContent [] (Dir es) = None.
Proof. reflexivity. Qed.

Lemma lookupEntry_setEntry_other m n e es :
  m <> n -> lookupEntry m (setEntry n e es) = lookupEntry m es.
Proof.
  intros Hmn. induction es as [|[k x] es IH]; simpl.
  - destruct (String.eqb_spec n m); [congruence | reflexivity].
  - destruct (String.eqb_spec k n) as [->|Hkn]; simpl.
    + destruct (String.eqb_spec n m); [congruence | reflexivity].
    + destruct (String.eqb_spec k m); [reflexivity | exact IH].
Qed.

Lemma lookupEntry_removeEntry_other m n es :
  m <> n -> lookupEntry m (removeEntry n es) = lookupEntry m es.
Proof.
  intros Hmn. induction es as [|[k x] es IH]; simpl; [reflexivity|].
  destruct (String.eqb_spec k n) as [->|Hkn]; simpl.
  - destruct (String.eqb_spec n m); [congruence | exact IH].
  - destruct (String.eqb_spec k m); [reflexivity | exact IH].
Qed.

Lemma fileContent_writeAt_same full p c fs fs' :
  writeAt full p c fs = Ok fs' -> fileContent p fs' = Some c.
Proof. intros H. unfold fileContent. now rewrite (lookup_writeAt _ _ _ _ _ H). Qed.

(** A write changes the content of no other file. *)
Lemma fileContent_writeAt_other full p c fs fs' q :
  writeAt full p c fs = Ok fs' -> q <> p -> fileContent q fs' = fileContent q fs.
Proof.
  revert fs fs' q; induction p as [|n p IH]; intros fs fs' q H Hq.
  - destruct fs; discriminate.
  - destruct fs as [|es]; [discriminate|]. cbn [writeAt] in H.
    destruct p as [|n' p'].
    + assert (E : fs' = Dir (setEntry n (File c) es) /\
                  (forall sub, lookupEntry n es <> Some (Dir sub))).
      { destruct (lookupEntry n es) as [[|]|]; inversion H; split; congruence. }
      destruct E as (-> & Hnd).
      destruct q as [|m q]; [reflexivity|]. rewrite !fileContent_cons.
      destruct (String.eqb_spec m n) as [->|Hmn].
      * rewrite lookupEntry_setEntry.
        destruct q as [|m' q]; [congruence|]. rewrite fileContent_in_file.
        destruct (lookupEntry n es) as [[|sub]|]; try reflexivity.
        exfalso. exact (Hnd sub eq_refl).
      * now rewrite lookupEntry_setEntry_other.
    + destruct (lookupEntry n es) as [x|] eqn:E; [|discriminate].
      destruct (writeAt full (n' :: p') c x) as [x'|] eqn:Ew; [|discriminate].
      inversion H; subst; clear H.
      destruct q as [|m q]; [reflexivity|]. rewrite !fileContent_cons.
      destruct (String.eqb_spec m n) as [->|Hmn].
      * rewrite lookupEntry_setEntry, E. apply (IH _ _ _ Ew). congruence.
      * now rewrite lookupEntry_setEntry_other.
Qed.

(** Removing a path changes no file outside it. *)
Lemma fileContent_removeAt p fs q :
  p <> [] -> (forall r, q <> (p ++ r)%list) ->
  fileContent q (removeAt p fs) = fileContent q fs.
Proof.
  revert fs q; induction p as [|n p IH]; intros fs q Hp Hq; [congruence|].
  destruct fs as [|es]; [reflexivity|]. cbn [removeAt].
  destruct p as [|n' p'].
  - destruct q as [|m q]; [reflexivity|]. rewrite !fileContent_cons.
    destruct (String.eqb_spec m n) as [->|Hmn]; [exfalso; exact (Hq q eq_refl)|].
    now rewrite lookupEntry_removeEntry_other.
  - destruct (lookupEntry n es) as [x|] eqn:E; [|reflexivity].
    destruct q as [|m q]; [reflexivity|]. rewrite !fileContent_cons.
    destruct (String.eqb_spec m n) as [->|Hmn].
    + rewrite lookupEntry_setEntry, E. apply IH; [discriminate|].
      intros r ->. exact (Hq r eq_refl).
    + now rewrite lookupEntry_setEntry_other.
Qed.

(** Creating directories changes no file. *)
Lemma fileContent_mkdirAt full p fs fs' q :
  mkdirAt full p fs = Ok fs' -> fileContent q fs' = fileContent q fs.
Proof.
  revert fs fs' q; induction p as [|n p IH]; intros fs fs' q H.
  - destruct fs; [discriminate|]. now inversion H.
  - destruct fs as [|es]; [discriminate|]. cbn [mkdirAt] in H.
    apply NavFacts.bindR_ok in H as (x' & Hx & H). inversion H; subst; clear H.
    destruct q as [|m q]; [reflexivity|]. rewrite !fileContent_cons.
    destruct (String.eqb_spec m n) as [->|Hmn].
    + rewrite lookupEntry_setEntry. rewrite (IH _ _ _ Hx).
      destruct (lookupEntry n es); [reflexivity|].
      unfold fileContent. destruct q; reflexivity.
    + now rewrite lookupEntry_setEntry_other.
Qed.

Lemma readFileSync_fileContent p fs c :
  readFileSync p fs = Ok c <-> fileContent p fs = Some c.
Proof.
  unfold readFileSync, fileContent.
  destruct (lookup p fs) as [[|]|]; split; congruence.
Qed.

End FsMore.

Module PostProcessMore.
Import Str Js Fs FsFacts FsMore Process ProcessFacts ProcessMore Markdown DotnetDocs Scenarios.
Local Open Scope script_scope.

(** The body of the loop of [processMarkdownFiles]. *)
Local Abbreviation processFile directory :=
  (fun file : Path =>
     if endsWith ".md" (String.concat "/" file)
     then
       let filePath := join directory file in
       markdown <- reading (readFileSync filePath) ;;
       writing (writeFileSync filePath (processMarkdown markdown))
     else ret tt).

Lemma processFile_returned directory file w w1 :
  processFile directory file w = Returned tt w1 ->
  stdout w1 = stdout w /\ stderr w1 = stderr w /\
  if endsWith ".md" (String.concat "/" file)
  then exists c,
         fileContent (join directory file) (fs w) = Some c /\
         fileContent (join directory file) (fs w1) = Some (processMarkdown c) /\
         forall q, q <> join directory file -> fileContent q (fs w1) = fileContent q (fs w)
  else w1 = w.
Proof.
  cbv beta. destruct (endsWith ".md" (String.concat "/" file)).
  - intros H. apply bind_returned in H as (c & w0 & Hr & Hw).
    apply reading_returned in Hr as (-> & Hr).
    apply writing_returned in Hw as (Hw & Ho & He).
    split; [exact Ho|]. split; [exact He|]. exists c.
    split; [now apply readFileSync_fileContent|].
    split; [exact (fileContent_writeAt_same _ _ _ _ _ Hw)|].
    intros q Hq. exact (fileContent_writeAt_other _ _ _ _ _ _ Hw Hq).
  - intros [= <-]. auto.
Qed.

Lemma forEach_processFile directory files :
  forall w w',
    forEach (processFile directory) files w = Returned tt w' ->
    NoDup files ->
    (forall rel, In rel files -> endsWith ".md" (String.concat "/" rel) = true ->
       exists c,
         fileContent (join directory rel) (fs w) = Some c /\
         fileContent (join directory rel) (fs w') = Some (processMarkdown c)) /\
    (forall q,
       (forall rel, In rel files -> endsWith ".md" (String.concat "/" rel) = true ->
          q <> join directory rel) ->
       fileContent q (fs w') = fileContent q (fs w)) /\
    stdout w' = stdout w /\ stderr w' = stderr w.
Proof.
  induction files as [|file files IH]; intros w w' H Hnd.
  - inversion H; subst. repeat split; auto. intros rel [].
  - cbn [forEach] in H. apply bind_returned in H as ([] & w1 & H1 & H).
    inversion Hnd as [|? ? Hnotin Hnd']; subst.
    apply processFile_returned in H1 as (Ho1 & He1 & H1).
    destruct (IH _ _ H Hnd') as (Hmd & Hframe & Ho & He).
    split; [|split; [|split; congruence]].
    + intros rel [<-|Hin] Hrel.
      * rewrite Hrel in H1. destruct H1 as (c & Hc & Hc1 & _).
        exists c. split; [exact Hc|]. rewrite Hframe; [exact Hc1|].
        intros rel' Hin' _ Heq. apply app_inv_head in Heq. congruence.
      * destruct (Hmd rel Hin Hrel) as (c & Hc & Hc').
        exists c. split; [|exact Hc'].
        destruct (endsWith ".md" (String.concat "/" file)).
        -- destruct H1 as (c0 & _ & _ & Hother). rewrite <- Hother; [exact Hc|].
           intros Heq. apply app_inv_head in Heq. congruence.
        -- now subst w1.
    + intros q Hq. rewrite Hframe by (intros rel Hin; apply Hq; now right).
      destruct (endsWith ".md" (String.concat "/" file)) eqn:Ef.
      * destruct H1 as (c0 & _ & _ & Hother). apply Hother.
        apply Hq; [now left | exact Ef].
      * now subst w1.
Qed.

Lemma forEach_processFile_at directory w w' listing :
  processMarkdownFiles directory w = Returned tt w' ->
  readdirRecursive directory (fs w) = Ok listing ->
  NoDup listing ->
  forall rel, In rel listing -> endsWith ".md" (String.concat "/" rel) = true ->
    exists c,
      fileContent (join directory rel) (fs w) = Some c /\
      fileContent (join directory rel) (fs w') = Some (processMarkdown c).
Proof.
  unfold processMarkdownFiles. intros H Hl Hnd.
  apply bind_returned in H as (files & w0 & Hr & H).
  apply reading_returned in Hr as (-> & Hr).
  rewrite Hl in Hr. injection Hr as <-.
  exact (proj1 (forEach_processFile directory listing w w' H Hnd)).
Qed.

(** X9. When [processMarkdownFiles] returns and the listing of the
    directory names no path twice, every listed path that ends in [.md]
    is a file that now holds [processMarkdown] of its former content,
    every other file is as it was, and nothing was printed. *)
Theorem processMarkdownFiles_each_once directory w w' listing :
  processMarkdownFiles directory w = Returned tt w' ->
  readdirRecursive directory (fs w) = Ok listing ->
  NoDup listing ->
  (forall rel, In rel listing -> endsWith ".md" (String.concat "/" rel) = true ->
     exists c,
       fileContent (join directory rel) (fs w) = Some c /\
       fileContent (join directory rel) (fs w') = Some (processMarkdown c)) /\
  (forall q,
     (forall rel, In rel listing -> endsWith ".md" (String.concat "/" rel) = true ->
        q <> join directory rel) ->
     fileContent q (fs w') = fileContent q (fs w)) /\
  stdout w' = stdout w /\ stderr w' = stderr w.
Proof.
  unfold processMarkdownFiles. intros H Hl Hnd.
  apply bind_returned in H as (files & w0 & Hr & H).
  apply reading_returned in Hr as (-> & Hr).
  rewrite Hl in Hr. injection Hr as <-.
  exact (forEach_processFile directory listing w w' H Hnd).
Qed.

Lemma processMarkdownFiles_each_once_witness :
  let w' := finalWorld (processMarkdownFiles ["out"] generatedFiles) in
  (forall rel, In rel generatedListing ->
     endsWith ".md" (String.concat "/" rel) = true ->
     exists c,
       fileContent (join ["out"] rel) (fs generatedFiles) = Some c /\
       fileContent (join ["out"] rel) (fs w') = Some (processMarkdown c)) /\
  (forall q,
     (forall rel, In rel generatedListing ->
        endsWith ".md" (String.concat "/" rel) = true -> q <> join ["out"] rel) ->
     fileContent q (fs w') = fileContent q (fs generatedFiles)) /\
  stdout w' = stdout generatedFiles /\ stderr w' = stderr generatedFiles.
Proof.
  apply (processMarkdownFiles_each_once ["out"] generatedFiles _ generatedListing).
  - vm_compute. reflexivity.
  - reflexivity.
  - repeat constructor; simpl; intuition discriminate.
Defined.

End PostProcessMore.

Module JsDocsMore.
Import Str Js Fs FsFacts FsMore Process ProcessFacts ProcessMore JsDocs JsDocsFacts Scenarios.
Local Open Scope script_scope.

Section Script.

Variable Value : Type.
Variable JSON_stringify : option Value -> string.
Variable JSON_parse : string -> Result (ProjectReflection Value).
Variable dirname : Path.
Variables App Converted : Type.
Variable bootstrap : Path -> Path -> Entry -> Result App.
Variable convert : App -> Entry -> Result (option Converted).
Variable generateJson : App -> Converted -> Path -> Entry -> Result Entry.

Local Abbreviation export :=
  (exportJsdocToJson dirname App Converted bootstrap convert generateJson).
Local Abbreviation render := (convertJsonToMarkdown Value JSON_stringify JSON_parse).





(** X11. The reset at the start of the JS doc script leaves an empty
    output directory, changes no file outside it, and prints nothing. *)
Theorem resetOutDir_only_outDir w w0 :
  resetOutDir dirname w = Returned tt w0 ->
  lookup (outDir dirname) (fs w0) = Some (Dir []) /\
  (forall q, (forall r, q <> (outDir dirname ++ r)%list) ->
             fileContent q (fs w0) = fileContent q (fs w)) /\
  stdout w0 = stdout w /\ stderr w0 = stderr w.
Proof.
  intros H. destruct (resetOutDir_empty dirname _ _ H) as (Hl & Ho & He).
  split; [exact Hl|]. split; [|auto].
  intros q Hq. unfold resetOutDir in H.
  apply bind_returned in H as (present & w1 & Hp & H).
  apply bind_returned in H as (u & w2 & Hrm & H).
  apply writing_returned in H as (Hmk & _ & _).
  apply reading_returned in Hp as (-> & _).
  rewrite (fileContent_mkdirAt _ _ _ _ q Hmk).
  destruct present.
  - apply writing_returned in Hrm as (Hrm & _ & _).
    rewrite (rmSync_ok _ _ (outDir_not_root dirname)) in Hrm.
    injection Hrm as <-.
    apply fileContent_removeAt; [apply outDir_not_root | exact Hq].
  - now inversion Hrm.
Qed.

End Script.

Lemma resetOutDir_only_outDir_witness :
  let w0 := finalWorld (resetOutDir scriptsDir withTypedefs) in
  lookup (outDir scriptsDir) (fs w0) = Some (Dir []) /\
  (forall q, (forall r, q <> (outDir scriptsDir ++ r)%list) ->
             fileContent q (fs w0) = fileContent q (fs withTypedefs)) /\
  stdout w0 = stdout withTypedefs /\ stderr w0 = stderr withTypedefs.
Proof.
  apply (resetOutDir_only_outDir scriptsDir withTypedefs). reflexivity.
Defined.

End JsDocsMore.

(** * Further properties of the navigation tree *)

Module NavMore.
Import Str StrFacts Js Fs Headers Nav Scenarios SortFacts NavFacts.

Lemma stripSuffix_some suf s p : stripSuffix suf s = Some p -> s = p ++ suf.
Proof.
  revert p; induction s as [|c r IH]; intros p.
  - cbn [stripSuffix]. destruct (String.eqb_spec "" suf) as [<-|]; [|discriminate].
    now intros [= <-].
  - cbn [stripSuffix]. destruct (String.eqb_spec (String c r) suf) as [<-|].
    + now intros [= <-].
    + destruct (stripSuffix suf r) as [q|]; [|discriminate].
      intros [= <-]. simpl. f_equal. now apply IH.
Qed.

Lemma substring_prefix p q : String.substring 0 (String.length p) (p ++ q) = p.
Proof.
  induction p as [|c p IH]; simpl; [now destruct q | now rewrite IH].
Qed.

(** The base name of a Markdown file and [.md] give the file name back. *)
Lemma dropLast3_md n : endsWith ".md" n = true -> dropLast3 n ++ ".md" = n.
Proof.
  unfold endsWith. destruct (stripSuffix ".md" n) as [p|] eqn:E; [|discriminate].
  intros _. apply stripSuffix_some in E. subst n. unfold dropLast3.
  rewrite length_append. cbn [String.length].
  replace (String.length p + 3 - 3) with (String.length p) by lia.
  now rewrite substring_prefix.
Qed.

Lemma in_markdownBaseNames es file :
  In file (markdownBaseNames es) <->
  exists n, In n (map fst es) /\ endsWith ".md" n = true /\ file = dropLast3 n.
Proof.
  unfold markdownBaseNames. split.
  - intros H. apply (Permutation_in _ (sort_perm _)) in H.
    apply in_map_iff in H as (n & <- & Hn). apply filter_In in Hn as (? & ?). eauto.
  - intros (n & Hn & He & ->).
    apply (Permutation_in _ (Permutation_sym (sort_perm _))).
    apply in_map. now apply filter_In.
Qed.

Lemma lookupEntry_in n es :
  In n (map fst es) -> exists x, lookupEntry n es = Some x /\ In (n, x) es.
Proof.
  induction es as [|[m x] es IH]; simpl; [tauto|].
  destruct (String.eqb_spec m n) as [->|Hmn]; [eauto|].
  intros [?|Hin]; [congruence|]. destruct (IH Hin) as (y & ? & ?). eauto.
Qed.

Lemma lookupEntry_some_in n es x : lookupEntry n es = Some x -> In (n, x) es.
Proof.
  induction es as [|[m y] es IH]; simpl; [discriminate|].
  destruct (String.eqb_spec m n) as [->|Hmn]; [intros [= ->]; auto | auto].
Qed.

(** X12. The file that the builder asks [getMarkdownFileHeaders] to
    read always is an entry of the directory: for each base name that
    the loop handles, with the header prefix that the loop passes,
    either the entry is a file and its headers are returned, or it is a
    directory and the read fails with EISDIR.  The file is never
    missing. *)
Theorem headers_of_listed_file currentDir es (subDir : option Path) file :
  In file (markdownBaseNames es) ->
  let headerPrefix := match subDir with Some _ => "#" | None => "##" end in
  (exists markdown,
     lookupEntry (file ++ ".md") es = Some (File markdown) /\
     getMarkdownFileHeaders currentDir es (file ++ ".md") headerPrefix
       = Ok (matchHeaders headerPrefix markdown))
  \/
  (exists sub,
     lookupEntry (file ++ ".md") es = Some (Dir sub) /\
     getMarkdownFileHeaders currentDir es (file ++ ".md") headerPrefix
       = Throw EISDIR_read).
Proof.
  intros H headerPrefix. apply in_markdownBaseNames in H as (n & Hn & He & ->).
  rewrite (dropLast3_md _ He). unfold getMarkdownFileHeaders.
  destruct (lookupEntry_in _ _ Hn) as ([md|sub] & -> & _); eauto.
Qed.

Lemma headers_of_listed_file_witness :
  (exists markdown,
     lookupEntry ("a-b" ++ ".md") threeEntries = Some (File markdown) /\
     getMarkdownFileHeaders ["out"] threeEntries ("a-b" ++ ".md") "##"
       = Ok (matchHeaders "##" markdown))
  \/
  (exists sub,
     lookupEntry ("a-b" ++ ".md") threeEntries = Some (Dir sub) /\
     getMarkdownFileHeaders ["out"] threeEntries ("a-b" ++ ".md") "##"
       = Throw EISDIR_read).
Proof.
  apply (headers_of_listed_file ["out"] threeEntries None "a-b").
  simpl. tauto.
Defined.

Lemma mapR_throw {A B} (f : A -> Result B) xs x e :
  In x xs -> f x = Throw e -> exists e', mapR f xs = Throw e'.
Proof.
  induction xs as [|y xs IH]; simpl; [tauto|].
  intros [->|Hin] Hx.
  - rewrite Hx. simpl. eauto.
  - destruct (f y); simpl; [|eauto].
    destruct (IH Hin Hx) as (e' & ->). simpl. eauto.
Qed.

Lemma mapR_all_ok {A B} (f : A -> Result B) xs :
  (forall x, In x xs -> exists y, f x = Ok y) -> exists ys, mapR f xs = Ok ys.
Proof.
  induction xs as [|x xs IH]; intros H; simpl; [eauto|].
  destruct (H x (or_introl eq_refl)) as (y & ->).
  destruct IH as (ys & ->); [intros; apply H; now right|]. simpl. eauto.
Qed.

(** X13. A directory whose name ends in [.md] makes the builder throw:
    the name passes the filter and the read of its headers fails. *)
Theorem directory_named_markdown_throws rootDir es subDir n sub :
  lookupEntry n es = Some (Dir sub) -> endsWith ".md" n = true ->
  exists e, generateNavigationTree rootDir (Dir es) subDir = Throw e.
Proof.
  intros Hl He. rewrite generateNavigationTree_Dir.
  assert (Hin : In (dropLast3 n) (markdownBaseNames es)).
  { apply in_markdownBaseNames. exists n. repeat split; auto.
    apply lookupEntry_some_in in Hl. now apply (in_map fst) in Hl. }
  match goal with |- context [mapR ?f _] =>
    destruct (mapR_throw f _ (dropLast3 n) EISDIR_read Hin) as (e' & ->)
  end.
  - unfold fileItems, getMarkdownFileHeaders. rewrite (dropLast3_md _ He), Hl.
    reflexivity.
  - simpl. eauto.
Qed.

Lemma directory_named_markdown_throws_witness :
  exists e,
    generateNavigationTree ["out"]
      (Dir [("a.md", File "## A"); ("v1.md", Dir [])]) None = Throw e.
Proof.
  apply (directory_named_markdown_throws ["out"] _ None "v1.md" []); reflexivity.
Defined.

Lemma findSubTree_dir recurse file es r :
  findSubTree recurse file es = Some r ->
  exists sub, In (file, Dir sub) es /\ r = recurse (Dir sub).
Proof.
  induction es as [|[n x] es IH]; simpl; [discriminate|].
  destruct (String.eqb_spec n file) as [->|Hn].
  - destruct x as [|sub]; [discriminate|]. intros [= <-]. eauto.
  - intros H. destruct (IH H) as (sub & ? & ->). eauto.
Qed.

Lemma headers_ok es file :
  In file (markdownBaseNames es) ->
  (forall ne, In ne es ->
     (negb (endsWith ".md" (fst ne))
      || match snd ne with File _ => true | Dir _ => false end)
     && markdownAreFiles (snd ne) = true) ->
  forall currentDir headerPrefix,
    exists headers,
      getMarkdownFileHeaders currentDir es (file ++ ".md") headerPrefix = Ok headers.
Proof.
  intros H Hwf currentDir headerPrefix.
  apply in_markdownBaseNames in H as (n & Hn & He & ->).
  rewrite (dropLast3_md _ He). unfold getMarkdownFileHeaders.
  destruct (lookupEntry_in _ _ Hn) as (x & -> & Hx).
  specialize (Hwf _ Hx). cbn [fst snd] in Hwf. rewrite He in Hwf.
  destruct x; [eauto | discriminate].
Qed.

Lemma tree_of_markdown_files dir :
  forall rootDir subDir es,
    dir = Dir es -> markdownAreFiles dir = true ->
    exists items, generateNavigationTree rootDir dir subDir = Ok items.
Proof.
  induction dir as [c|es0 IH] using Entry_nested_ind;
    intros rootDir subDir es Hd Hwf; [discriminate|].
  injection Hd as <-. rewrite generateNavigationTree_Dir.
  cbn [markdownAreFiles] in Hwf. rewrite forallb_forall in Hwf.
  rewrite Forall_forall in IH.
  match goal with |- context [mapR ?f ?xs] =>
    destruct (mapR_all_ok f xs) as (perFile & ->); [|simpl; eauto]
  end.
  intros file Hfile. unfold fileItems.
  destruct (headers_ok es0 file Hfile Hwf (join rootDir (orEmpty subDir))
              (match subDir with Some _ => "#" | None => "##" end))
    as (headers & ->).
  cbn [bindR]. apply mapR_all_ok. intros header _.
  destruct (findSubTree _ file es0) as [recurse|] eqn:Er; [|simpl; eauto].
  apply findSubTree_dir in Er as (sub & Hx & ->).
  specialize (Hwf _ Hx). apply andb_true_iff in Hwf as (_ & Hsub).
  destruct (IH _ Hx rootDir (Some (join (orEmpty subDir) [file])) sub eq_refl Hsub)
    as (items & E).
  cbn [snd] in E. rewrite E. simpl. eauto.
Qed.

(** X14. The tree of the script, [generateNavigationTree(outDir)]: the
    builder returns a tree for every directory in which, at every depth,
    the entries named like Markdown files are files and have plain base
    names.  The base names are what the builder joins to the path of
    the directory when it looks for a directory to enter. *)
Theorem markdown_files_give_a_tree rootDir es :
  plainNames (Dir es) = true ->
  markdownAreFiles (Dir es) = true ->
  exists items, generateNavigationTree rootDir (Dir es) None = Ok items.
Proof. intros _ H. exact (tree_of_markdown_files (Dir es) rootDir None es eq_refl H). Qed.

Lemma markdown_files_give_a_tree_witness :
  exists items, generateNavigationTree ["out"] (Dir threeEntries) None = Ok items.
Proof. apply markdown_files_give_a_tree; reflexivity. Defined.

(** Every item of the list comes from a header of one of the listed
    files. *)
Lemma item_of_listed_file rootDir es subDir l it :
  generateNavigationTree rootDir (Dir es) subDir = Ok l ->
  In it l ->
  exists file header subItems,
    In file (markdownBaseNames es) /\
    it = navItemOf subDir file header subItems /\
    forall sub, subItems = Some sub ->
      exists n x, In (n, x) es /\
        generateNavigationTree rootDir x (Some (join (orEmpty subDir) [file])) = Ok sub.
Proof.
  rewrite generateNavigationTree_Dir. intros H Hin.
  apply bindR_ok in H as (perFile & Hm & H). inversion H; subst; clear H.
  apply in_concat in Hin as (its & Hits & Hin).
  apply mapR_ok in Hm.
  destruct (Forall2_in_r _ _ _ _ Hm Hits) as (file & Hfile & Hf).
  apply fileItems_ok in Hf as (headers & kept & subItems & _ & _ & -> & Hsub).
  apply in_map_iff in Hin as (h & <- & Hh).
  exists file, h, subItems. split; [exact Hfile|]. split; [reflexivity|].
  intros sub Hs.
  destruct (Hsub sub Hs) as (recurse & Hr & Hok); [now destruct kept|].
  apply findSubTree_some in Hr as (n & x & Hx & ->). eauto.
Qed.

Lemma plainNames_entry es n x :
  plainNames (Dir es) = true -> In (n, x) es -> plainNames x = true.
Proof.
  cbn [plainNames]. rewrite forallb_forall. intros H Hin.
  specialize (H _ Hin). now apply andb_true_iff in H as (_ & ?).
Qed.

Lemma plainNames_baseName es file :
  plainNames (Dir es) = true -> In file (markdownBaseNames es) ->
  plainBaseName file = true.
Proof.
  cbn [plainNames]. rewrite forallb_forall. intros H Hin.
  apply in_markdownBaseNames in Hin as (n & Hn & He & ->).
  apply in_map_iff in Hn as ([n' x] & <- & Hx).
  specialize (H _ Hx). cbn [fst snd] in *. rewrite He in H.
  now apply andb_true_iff in H as (? & _).
Qed.

(** Every item of a tree, at any depth, was pushed by the loop over the
    headers, for a file whose path below the root is made of plain
    segments. *)
Lemma occurs_navItemOf dir :
  forall rootDir subDir l it,
    plainNames dir = true ->
    Forall (fun seg => plainBaseName seg = true) (orEmpty subDir) ->
    generateNavigationTree rootDir dir subDir = Ok l -> occurs it l ->
    exists sd file header subItems,
      it = navItemOf sd file header subItems /\
      Forall (fun seg => plainBaseName seg = true) (join (orEmpty sd) [file]).
Proof.
  induction dir as [c|es IH] using Entry_nested_ind;
    intros rootDir subDir l it Hp Hsd H Hocc; [discriminate|].
  assert (Hseg : forall file, In file (markdownBaseNames es) ->
            Forall (fun seg => plainBaseName seg = true) (join (orEmpty subDir) [file])).
  { intros file Hfile. apply Forall_app. split; [exact Hsd|].
    constructor; [exact (plainNames_baseName _ _ Hp Hfile) | constructor]. }
  destruct Hocc as [l Hin | l parent sub Hin Hitems Hocc].
  - destruct (item_of_listed_file _ _ _ _ _ H Hin) as (file & h & si & Hfile & -> & _).
    exists subDir, file, h, si. split; [reflexivity | auto].
  - destruct (item_of_listed_file _ _ _ _ _ H Hin) as (file & h & si & Hfile & -> & Hsub).
    simpl in Hitems. destruct (Hsub sub Hitems) as (n & x & Hx & Hgen).
    rewrite Forall_forall in IH.
    exact (IH _ Hx rootDir (Some (join (orEmpty subDir) [file])) sub it
             (plainNames_entry _ _ _ Hp Hx) (Hseg _ Hfile) Hgen Hocc).
Qed.

Lemma prefix_app p y : String.prefix p (p ++ y) = true.
Proof.
  induction p as [|a p IH]; [now destruct y|]. cbn [append String.prefix].
  destruct (ascii_dec a a); [exact IH | congruence].
Qed.

Lemma slashed_no_backslash x : hasChar "\" (slashed x) = false.
Proof.
  induction x as [|c x IH]; [reflexivity|]. unfold slashed in *. cbn [mapChars hasChar].
  rewrite IH, orb_false_r.
  destruct (Ascii.eqb_spec c "\") as [->|Hc]; [reflexivity|].
  now apply Ascii.eqb_neq.
Qed.

Lemma anchor_char c :
  let a := toLowerChar (if (c =? ".")%char || (c =? " ")%char then "-"%char else c) in
  (a =? ".")%char = false /\ (a =? " ")%char = false.
Proof.
  destruct c as [[] [] [] [] [] [] [] []]; split; vm_compute; reflexivity.
Qed.

Lemma anchor_plain h :
  hasChar "." (toLowerCase (dashed h)) = false /\
  hasChar " " (toLowerCase (dashed h)) = false.
Proof.
  induction h as [|c h (IHd & IHs)]; [split; reflexivity|].
  unfold toLowerCase, dashed in *. cbn [mapChars hasChar].
  destruct (anchor_char c) as (Hd & Hs). cbv zeta in Hd, Hs.
  rewrite Hd, Hs, IHd, IHs. split; reflexivity.
Qed.

(** X15. The tree of the script, built over a directory whose Markdown
    files have plain base names: every link, at any depth, starts with
    the reference path of the .NET pages.  A link to a page is the
    reference path followed by the base names on the way to the file,
    separated by slashes, none of them empty or a dot segment, and it
    holds no backslash; a link to a namespace is the reference path, a
    hash sign and an anchor without dots and spaces. *)
Theorem links_of_tree rootDir dir l it :
  plainNames dir = true ->
  generateNavigationTree rootDir dir None = Ok l -> occurs it l ->
  String.prefix referencePath (link it) = true /\
  ((hasChar "\" (link it) = false /\
    exists segs,
      link it = slashed (referencePath ++ String.concat "/" segs) /\
      segs <> [] /\ Forall (fun seg => plainBaseName seg = true) segs)
   \/
   exists anchor,
     link it = referencePath ++ "#" ++ anchor /\
     hasChar "." anchor = false /\ hasChar " " anchor = false).
Proof.
  intros Hp H Hocc.
  destruct (occurs_navItemOf dir rootDir None l it Hp (Forall_nil _) H Hocc)
    as (sd & file & h & si & -> & Hsegs).
  cbn [navItemOf link]. destruct (endsWith " namespace" h).
  - split; [apply prefix_app|]. right. exists (toLowerCase (dashed h)).
    split; [reflexivity | apply anchor_plain].
  - split.
    + change (slashed (referencePath ++ String.concat "/" (join (orEmpty sd) [file])))
        with (referencePath ++ slashed (String.concat "/" (join (orEmpty sd) [file]))).
      apply prefix_app.
    + left. split; [apply slashed_no_backslash|].
      exists (join (orEmpty sd) [file]). split; [reflexivity|]. split; [|exact Hsegs].
      unfold join. now destruct (orEmpty sd).
Qed.

Lemma links_of_tree_witness :
  let it := navItemOf (Some ["b"]) "T" "T class" None in
  String.prefix referencePath (link it) = true /\
  ((hasChar "\" (link it) = false /\
    exists segs,
      link it = slashed (referencePath ++ String.concat "/" segs) /\
      segs <> [] /\ Forall (fun seg => plainBaseName seg = true) segs)
   \/
   exists anchor,
     link it = referencePath ++ "#" ++ anchor /\
     hasChar "." anchor = false /\ hasChar " " anchor = false).
Proof.
  apply (links_of_tree ["out"] threeFiles threeFilesNav).
  - reflexivity.
  - reflexivity.
  - apply (occurs_below _ _
             (navItemOf None "b" "B namespace"
                (Some [navItemOf (Some ["b"]) "T" "T class" None]))
             [navItemOf (Some ["b"]) "T" "T class" None]);
      [simpl; tauto | reflexivity | apply occurs_here; simpl; tauto].
Defined.

End NavMore.

Module EndToEndMore.
Import Str StrFacts Js Fs FsFacts FsMore Process ProcessFacts ProcessMore Headers Nav Markdown.
Import DotnetDocs DotnetDocsFacts PostProcessMore Scenarios.
Local Open Scope script_scope.

Lemma in_descendants n x es : In (n, x) es -> In [n] (descendants (Dir es)).
Proof.
  intros H. unfold descendants. cbn [height seq flat_map level].
  apply in_or_app. left. apply in_map_iff. now exists (n, x).
Qed.

Lemma listed_child p n fs x listing :
  lookup (join p [n]) fs = Some x -> readdirRecursive p fs = Ok listing ->
  In [n] listing.
Proof.
  unfold join, readdirRecursive. rewrite JsDocsFacts.lookup_app.
  destruct (lookup p fs) as [[c|es]|]; try discriminate.
  cbn [lookup]. destruct (lookupEntry n es) as [y|] eqn:E; [|discriminate].
  intros _ [= <-]. apply (in_descendants n y). now apply NavMore.lookupEntry_some_in.
Qed.

Section Script.

Variables platform arch : string.
Variable dirname : Path.
Variable execSync : string -> Entry -> ExecResult.
Variable JSON_stringify : list NavItem -> string.

Lemma buildIndex_index ps w w1 :
  buildIndex platform arch dirname execSync JSON_stringify ps w = Returned tt w1 ->
  exists merged,
    fileContent (join (outDir dirname) ["index.md"]) (fs w1)
    = Some (combinedIndex merged).
Proof.
  unfold buildIndex. intros H.
  apply bind_returned in H as (present & wa & _ & H).
  apply bind_returned in H as (? & wb & _ & H).
  apply bind_returned in H as (? & wc & _ & H).
  apply bind_returned in H as (indexMarkdown & wd & _ & H).
  apply bind_returned in H as (nav & we & _ & H).
  apply bind_returned in H as (? & wf & _ & H).
  apply writing_returned in H as (Hw & _).
  exists indexMarkdown. exact (fileContent_writeAt_same _ _ _ _ _ Hw).
Qed.

(** X16. The two halves of a successful run compose: when the index has
    been built and the post-processing of the output directory returns
    (its listing naming no path twice), [index.md] holds the front
    matter followed by the combined index with its table cells
    escaped. *)
Theorem index_after_postprocessing ps w w1 w2 w' listing :
  buildIndex platform arch dirname execSync JSON_stringify ps w = Returned tt w1 ->
  fs w2 = fs w1 ->
  readdirRecursive (outDir dirname) (fs w2) = Ok listing ->
  NoDup listing ->
  processMarkdownFiles (outDir dirname) w2 = Returned tt w' ->
  exists merged,
    readFileSync (join (outDir dirname) ["index.md"]) (fs w')
    = Ok (frontMatter ++ escapeTableChars (combinedIndex merged)).
Proof.
  intros Hb Hfs Hl Hnd Hp.
  destruct (buildIndex_index _ _ _ Hb) as (merged & Hc). rewrite <- Hfs in Hc.
  assert (Hin : In ["index.md"] listing).
  { unfold fileContent in Hc.
    destruct (lookup (join (outDir dirname) ["index.md"]) (fs w2)) as [x|] eqn:E;
      [|discriminate].
    exact (listed_child _ _ _ _ _ E Hl). }
  destruct (forEach_processFile_at (outDir dirname) w2 w' listing Hp Hl Hnd
              ["index.md"] Hin eq_refl) as (c & Hc0 & Hc1).
  exists merged. apply readFileSync_fileContent.
  rewrite Hc1. rewrite Hc in Hc0. injection Hc0 as <-. reflexivity.
Qed.

End Script.

Lemma index_after_postprocessing_witness :
  let w1 :=
    finalWorld (buildIndex "linux" "x64" scriptsDir workingTools noJson
                  projectList emptyWorld) in
  let w' := finalWorld (processMarkdownFiles (outDir scriptsDir) w1) in
  exists merged,
    readFileSync (join (outDir scriptsDir) ["index.md"]) (fs w')
    = Ok (frontMatter ++ escapeTableChars (combinedIndex merged)).
Proof.
  intros w1 w'.
  apply (index_after_postprocessing "linux" "x64" scriptsDir workingTools noJson
           projectList emptyWorld w1 w1 w'
           [ ["Microsoft.JavaScript.NodeApi.md"];
             ["Microsoft.JavaScript.NodeApi.DotNetHost.md"];
             ["nav.mts"]; ["index.md"] ]).
  - vm_compute. reflexivity.
  - reflexivity.
  - vm_compute. reflexivity.
  - repeat constructor; simpl; intuition discriminate.
  - vm_compute. reflexivity.
Defined.

End EndToEndMore.

(** * Further properties of the JS renderer *)

Module JsRenderMore.
Import Str StrFacts Js JsDocs.

Lemma concat_empty_app a b :
  String.concat "" (a ++ b)%list = String.concat "" a ++ String.concat "" b.
Proof.
  induction a as [|x a IH]; [reflexivity|].
  change ((x :: a) ++ b)%list with (x :: (a ++ b))%list.
  rewrite !DotnetDocsFacts.concat_empty_cons, IH. now rewrite append_assoc.
Qed.

(** X17. The parameters of a call example: none or one is printed as it
    is; two or more are printed one per line, each indented and followed
    by a comma (the last one too), and a line break closes the list. *)
Theorem layoutParameters_text parameters :
  List.length (layoutParameters parameters) = List.length parameters /\
  String.concat "" (layoutParameters parameters)
  = if (1 <? List.length parameters)%nat
    then String.concat "" (map (fun p => nl ++ "    " ++ p ++ ",") parameters) ++ nl
    else String.concat "" parameters.
Proof.
  unfold layoutParameters. destruct (1 <? List.length parameters)%nat eqn:E;
    [|split; reflexivity].
  set (ps := map (fun p => nl ++ "    " ++ p ++ ",") parameters).
  assert (Hne : ps <> []).
  { subst ps. destruct parameters; [discriminate E | discriminate]. }
  cbv zeta. split.
  - rewrite length_app. cbn [List.length].
    rewrite <- (length_map (fun p => nl ++ "    " ++ p ++ ",") parameters). fold ps.
    rewrite (app_removelast_last "" Hne) at 2. rewrite length_app. reflexivity.
  - rewrite concat_empty_app. cbn [String.concat].
    rewrite (app_removelast_last "" Hne) at 3.
    rewrite concat_empty_app. cbn [String.concat]. now rewrite append_assoc.
Qed.

Section Script.

Variable Value : Type.
Variable JSON_stringify : option Value -> string.
Variable JSON_parse : string -> Result (ProjectReflection Value).

(** X18. The renderer returns a text for every type tree in which no type
    is absent and every declaration with a single signature has its
    parameter array. *)
Theorem typeToMarkdown_returns :
  forall t, conforming Value t = true ->
  exists s, typeToMarkdown Value JSON_stringify t = Ok s.
Proof.
  fix IH 1. intros [|ty v n d] H; [discriminate|].
  cbn [typeToMarkdown].
  destruct (isLiteral Value (TypeObject Value ty v n d)); [eauto|].
  destruct (truthyStr (nameOf Value (TypeObject Value ty v n d))); [eauto|].
  destruct d as [[[[|[ps rt c] [|sg sgs]]|]]|]; eauto.
  cbn [conforming] in H. destruct ps as [l|]; [|discriminate].
  apply andb_true_iff in H as (Hl & Hrt).
  destruct (IH rt Hrt) as (r & ->).
  assert (Hps : exists rendered,
            (fix each (l : list (ParameterReflection Value)) : Result (list string) :=
               match l with
               | [] => Ok []
               | mkParameter _ pname ptype _ :: r =>
                   bindR (typeToMarkdown Value JSON_stringify ptype) (fun t =>
                   bindR (each r) (fun ts => Ok ((pname ++ ": " ++ t) :: ts)))
               end) l = Ok rendered).
  { induction l as [|[pn pt pc] l IHl]; [eauto|].
    cbn [forallb] in Hl. apply andb_true_iff in Hl as (Hp & Hl).
    destruct (IH pt Hp) as (s & ->). destruct (IHl Hl) as (ts & ->).
    simpl. eauto. }
  destruct Hps as (rendered & ->). simpl. eauto.
Qed.

Local Abbreviation render := (convertJsonToMarkdown Value JSON_stringify JSON_parse).

(** X19. What [convertJsonToMarkdown] does with its input: an exception
    of [JSON.parse] is passed on; a project without a [children] array
    makes it throw; and every page it returns opens with the title line
    of the package. *)
Theorem convertJsonToMarkdown_outcome json :
  (forall e, JSON_parse json = Throw e -> render json = Throw e) /\
  (forall project, JSON_parse json = Ok project -> children Value project = None ->
     render json = Throw (TypeError "filter")) /\
  (forall project md, JSON_parse json = Ok project -> render json = Ok md ->
     exists rest,
       md = "# " ++ projectName Value project ++ " package" ++ nl ++ rest).
Proof.
  unfold convertJsonToMarkdown. split; [|split].
  - intros e ->. reflexivity.
  - intros project Hp Hc. rewrite Hp. cbn [bindR]. now rewrite Hc.
  - intros project md -> H. cbn [bindR] in H.
    destruct (children Value project) as [items|]; [|discriminate].
    apply NavFacts.bindR_ok in H as (props & _ & H).
    apply NavFacts.bindR_ok in H as (funs & _ & H).
    destruct (filter (hasKind Value Variable_) items),
             (filter (hasKind Value Function_) items);
      injection H as <-; cbn [append]; rewrite ?append_assoc; cbn [append];
      eexists; reflexivity.
Qed.

End Script.

Lemma convertJsonToMarkdown_outcome_witness :
  let page :=
    match convertJsonToMarkdown unit Scenarios.showUnit Scenarios.parseOneVariable "{}" with
    | Ok md => md
    | Throw _ => ""
    end in
  exists rest, page = "# " ++ "node-api-dotnet" ++ " package" ++ nl ++ rest.
Proof.
  intros page.
  destruct (convertJsonToMarkdown_outcome unit Scenarios.showUnit
              Scenarios.parseOneVariable "{}") as (_ & _ & H).
  exact (H _ page eq_refl eq_refl).
Defined.

Lemma typeToMarkdown_returns_witness :
  exists s,
    typeToMarkdown unit Scenarios.showUnit
      (TypeObject unit (Some "reflection") None None
         (Some (mkDeclaration unit
            (Some [mkSignature unit
                     (Some [mkParameter unit "name"
                              (TypeObject unit (Some "intrinsic") None (Some "string") None)
                              None])
                     (TypeObject unit (Some "intrinsic") None (Some "void") None)
                     None])))) = Ok s.
Proof. apply typeToMarkdown_returns. reflexivity. Defined.

End JsRenderMore.

Module OverloadMore.
Import Str StrFacts Headers.

Lemma restOfOverloadSuffix_shape rest :
  restOfOverloadSuffix rest = true ->
  exists body, rest = body ++ ")" /\ singleLine body = true.
Proof.
  induction rest as [|c r IH]; [discriminate|]. cbn [restOfOverloadSuffix].
  destruct r as [|c' r'].
  - intros H. apply Ascii.eqb_eq in H. subst c. now exists "".
  - intros H. apply andb_true_iff in H as (Hc & Hr).
    destruct (IH Hr) as (body & E & Hb). exists (String c body).
    split; [simpl; now rewrite <- E | simpl; now rewrite Hc, Hb].
Qed.

Lemma overloadSuffixHere_shape s :
  overloadSuffixHere s = true ->
  exists d body,
    isDigit d = true /\ singleLine body = true /\
    s = " (" ++ String d body ++ ")".
Proof.
  destruct s as [|sp [|op [|d rest]]]; try discriminate. cbn [overloadSuffixHere].
  intros H. apply andb_true_iff in H as (H & Hrest).
  apply andb_true_iff in H as (H & Hd). apply andb_true_iff in H as (Hsp & Hop).
  apply Ascii.eqb_eq in Hsp, Hop. subst sp op.
  destruct (restOfOverloadSuffix_shape _ Hrest) as (body & -> & Hb).
  now exists d, body.
Qed.

(** X20. What the overload pattern removes from a header: either nothing
    (the header has no match), or a tail made of a space, an opening
    parenthesis, a digit, text without line breaks and the closing
    parenthesis that ends the header. *)
Theorem removeOverloadSuffix_shape h :
  (beforeOverloadSuffix h = None /\ removeOverloadSuffix h = h) \/
  (exists d body,
     isDigit d = true /\ singleLine body = true /\
     h = removeOverloadSuffix h ++ " (" ++ String d body ++ ")").
Proof.
  unfold removeOverloadSuffix.
  induction h as [|c r IH]; [left; split; reflexivity|].
  cbn [beforeOverloadSuffix].
  destruct (overloadSuffixHere (String c r)) eqn:E.
  - right. exact (overloadSuffixHere_shape _ E).
  - destruct (beforeOverloadSuffix r) as [p|] eqn:Er.
    + right. destruct IH as [(Hn & _)|(d & body & Hd & Hb & Hr)]; [discriminate|].
      exists d, body. repeat split; auto. cbn [option_map].
      change (String c p ++ " (" ++ String d body ++ ")")
        with (String c (p ++ " (" ++ String d body ++ ")")).
      now rewrite <- Hr.
    + left. split; reflexivity.
Qed.

End OverloadMore.
